(** * db-ally: the IQL evaluation metrics and the IQL front end they score

    The development follows [src/dbally_benchmark/iql/metrics.py].  The
    metric functions are embedded as programs of a small state-and-exception
    monad: the state holds the list objects the functions receive by
    reference and the sink of [logger.warning]; exceptions are Python
    exception instances matched by class, the way [except] clauses do.

    The collaborators the metrics import ([ast.parse],
    [MethodCallVisitor.get_method_calls], [IQLQuery.parse],
    [IQLActions.parse]) are an interface, [FrontEnd]; the metric facts hold
    for every implementation of it.  A front end written after the
    specification (lexer, parser, validator, runner) instantiates the
    interface and carries the scenarios. *)

From Stdlib Require Import ZArith QArith Qreduction Lia List Bool String Ascii.
From Stdlib Require Import DecimalString Permutation Qminmax.
Import ListNotations.

Local Open Scope string_scope.
Local Open Scope list_scope.
Local Open Scope Z_scope.

(* ------------------------------------------------------------------ *)
(** ** Python values, exceptions and effects *)

Module Py.

(** An exception instance: its class, the proper superclasses of that class
    below [Exception], and its message.  Every instance modelled here is an
    [Exception]; interpreter signals such as [KeyboardInterrupt] are outside
    the model. *)
Record exn : Type := Exn {
  exn_class : string;
  exn_bases : list string;
  exn_msg : string
}.

(** [isinstance(e, cls)], with the class given by name. *)
Definition isinstance (e : exn) (cls : string) : bool :=
  String.eqb cls "BaseException"
  || String.eqb cls "Exception"
  || String.eqb cls (exn_class e)
  || existsb (String.eqb cls) (exn_bases e).

(** [except (C1, ..., Cn)]: the instance matches one of the classes. *)
Definition except (classes : list string) (e : exn) : bool :=
  existsb (isinstance e) classes.

(** A bare [except:]. *)
Definition except_all (e : exn) : bool := true.

Definition SyntaxError (msg : string) : exn := Exn "SyntaxError" [] msg.
Definition ZeroDivisionError : exn :=
  Exn "ZeroDivisionError" ["ArithmeticError"] "division by zero".
Definition RecursionError : exn :=
  Exn "RecursionError" ["RuntimeError"] "maximum recursion depth exceeded".

(** The outcome of a call: a value or a raised exception. *)
Inductive result (A : Type) : Type :=
| Ok (a : A)
| Raise (e : exn).
Arguments Ok {A} a.
Arguments Raise {A} e.

Definition is_ok {A} (r : result A) : bool :=
  match r with Ok _ => true | Raise _ => false end.

Definition rbind {A B} (r : result A) (k : A -> result B) : result B :=
  match r with Ok a => k a | Raise e => Raise e end.

Definition rmap {A B} (f : A -> B) (r : result A) : result B :=
  rbind r (fun a => Ok (f a)).

(** [x in xs] for a list of [str]. *)
Definition py_in (x : string) (xs : list string) : bool :=
  existsb (String.eqb x) xs.

(** A [float] is idealised as the rational it rounds, kept in lowest terms
    so that equal numbers are equal terms. *)
Definition float : Type := Q.

End Py.
Export Py.

(* ------------------------------------------------------------------ *)
(** ** Data model *)

(** The declared type of a parameter of an exposed operation. *)
Inductive ptype : Type := TyStr | TyInt | TyFloat | TyBool.

(** Modelled from the spec: [MethodParamWithTyping] is declared in
    [dbally.views.base], outside the sources at hand.  A parameter has a
    name, a declared type and an optional similarity-hint reference. *)
Record MethodParam : Type := {
  param_name : string;
  param_type : ptype;
  similarity_hint : option string
}.

(** [ExposedFunction] of [dbally.views.base].  The metrics read [name];
    the description and the ordered parameter list are modelled from the
    spec (ExposedOperation). *)
Record ExposedFunction : Type := {
  name : string;
  description : string;
  parameters : list MethodParam
}.

(** [IQLResult] of [dbally_benchmark.iql.iql_result].  The metrics read
    [iql_filters] and [iql_actions]; the ground truth is modelled from the
    spec (EvaluationRecord). *)
Record IQLResult : Type := {
  iql_filters : string;
  iql_actions : string;
  ground_truth : string
}.

(** The collaborators [metrics.py] imports.  Each is a function of its
    arguments that returns or raises. *)
Class FrontEnd : Type := {
  AST : Type;
  ast_parse : string -> result AST;
  get_method_calls : AST -> result (list string);
  IQLQuery : Type;
  IQLQuery_parse : string -> list ExposedFunction -> result IQLQuery;
  IQLActions : Type;
  IQLActions_parse : string -> list ExposedFunction -> result IQLActions
}.

(* ------------------------------------------------------------------ *)
(** ** The world the metric functions run in *)

Module Eff.

(** A reference to a list object. *)
Definition ref : Type := nat.

(** The heap maps a reference to the current content of its list object;
    the sink holds what was passed to [logger.warning], oldest first. *)
Record World : Type := {
  heap : ref -> list IQLResult;
  sink : list exn
}.

Definition M (A : Type) : Type := World -> result A * World.

Definition ret {A} (a : A) : M A := fun w => (Ok a, w).

Definition raise {A} (e : exn) : M A := fun w => (Raise e, w).

Definition bind {A B} (m : M A) (k : A -> M B) : M B :=
  fun w =>
    match m w with
    | (Ok a, w') => k a w'
    | (Raise e, w') => (Raise e, w')
    end.

(** A call of a collaborator: it returns or raises, the world is as
    before. *)
Definition call {A} (r : result A) : M A := fun w => (r, w).

(** The handler of the first clause that matches; no clause matching, the
    exception propagates. *)
Fixpoint dispatch {A} (clauses : list ((exn -> bool) * (exn -> M A)))
    (e : exn) : M A :=
  match clauses with
  | [] => raise e
  | (matches, handler) :: rest =>
      if matches e then handler e else dispatch rest e
  end.

(** [try: body except ...], the clauses in source order. *)
Definition try_ {A} (body : M A)
    (clauses : list ((exn -> bool) * (exn -> M A))) : M A :=
  fun w =>
    match body w with
    | (Ok a, w') => (Ok a, w')
    | (Raise e, w') => dispatch clauses e w'
    end.

(** [logger.warning(exc)]. *)
Definition logger_warning (exc : exn) : M unit :=
  fun w => (Ok tt, {| heap := heap w; sink := sink w ++ [exc] |}).

(** The elements a [for] loop over the list object visits. *)
Definition iter (l : ref) : M (list IQLResult) :=
  fun w => (Ok (heap w l), w).

(** [len(l)]. *)
Definition len (l : ref) : M Z :=
  fun w => (Ok (Z.of_nat (List.length (heap w l))), w).

(** [for x in xs: body], the loop's local variables threaded as [s]. *)
Fixpoint for_each {A S} (xs : list A) (s : S) (body : S -> A -> M S) : M S :=
  match xs with
  | [] => ret s
  | x :: xs' => bind (body s x) (fun s' => for_each xs' s' body)
  end.

(** [a / b] on two [int]s. *)
Definition py_truediv (a b : Z) : M float :=
  if b =? 0 then raise ZeroDivisionError
  else ret (Qred (inject_Z a / inject_Z b)).

End Eff.
Export Eff.

Declare Scope eff_scope.
Delimit Scope eff_scope with eff.
Notation "x <- m ;; k" := (bind m (fun x => k))
  (at level 61, m at next level, right associativity) : eff_scope.
Notation "' p <- m ;; k" := (bind m (fun p => k))
  (at level 61, p pattern, m at next level, right associativity) : eff_scope.
Notation "m ;;; k" := (bind m (fun _ => k))
  (at level 61, right associativity) : eff_scope.

(* ------------------------------------------------------------------ *)
(** ** [dbally_benchmark/iql/metrics.py] *)

Module Metrics.
Section WithFrontEnd.
Context {FE : FrontEnd}.
Local Open Scope eff_scope.

Definition _count_hallucinated_methods_for_single_example
    (iql : string) (allowed_methods : list string) : M (Z * Z) :=
  try_
    (predicted_methods <-
       call (rbind (ast_parse iql) get_method_calls) ;;
     let hallucinated_methods_count :=
       fold_left
         (fun count method =>
            if negb (py_in method allowed_methods) then count + 1 else count)
         predicted_methods 0 in
     ret (hallucinated_methods_count,
          Z.of_nat (List.length predicted_methods)))
    [(except_all, fun _ => ret (0, 0))].

Definition calculate_hallucinated_filters_for_dataset
    (dataset : ref) (filter_list : list ExposedFunction) : M float :=
  let allowed_filters := map name filter_list in
  examples <- iter dataset ;;
  ' (hallucinated_filters_count, total_filters_count) <-
    for_each examples (0, 0)
      (fun '(hallucinated_filters_count, total_filters_count) example =>
         ' (hallucinated_filters, total_filters) <-
           _count_hallucinated_methods_for_single_example
             (iql_filters example) allowed_filters ;;
         ret (hallucinated_filters_count + hallucinated_filters,
              total_filters_count + total_filters)) ;;
  if total_filters_count =? 0 then ret 0%Q
  else py_truediv hallucinated_filters_count total_filters_count.

Definition calculate_hallucinated_actions_for_dataset
    (dataset : ref) (action_list : list ExposedFunction) : M float :=
  let allowed_actions := map name action_list in
  examples <- iter dataset ;;
  ' (hallucinated_actions_count, total_actions_count) <-
    for_each examples (0, 0)
      (fun '(hallucinated_actions_count, total_actions_count) example =>
         ' (hallucinated_actions, total_actions) <-
           _count_hallucinated_methods_for_single_example
             (iql_actions example) allowed_actions ;;
         ret (hallucinated_actions_count + hallucinated_actions,
              total_actions_count + total_actions)) ;;
  if total_actions_count =? 0 then ret 0%Q
  else py_truediv hallucinated_actions_count total_actions_count.

Definition calculate_valid_iql
    (dataset : ref) (filter_list action_list : list ExposedFunction)
    : M float :=
  examples <- iter dataset ;;
  valid_iql <-
    for_each examples 0
      (fun valid_iql example =>
         try_
           (call (IQLQuery_parse (iql_filters example) filter_list) ;;;
            call (IQLActions_parse (iql_actions example) action_list) ;;;
            ret (valid_iql + 1))
           [(except ["Exception"],
             fun exc => logger_warning exc ;;; ret valid_iql)]) ;;
  n <- len dataset ;;
  py_truediv valid_iql n.

Definition calculate_syntax_errors
    (dataset : ref) (filter_list action_list : list ExposedFunction)
    : M float :=
  examples <- iter dataset ;;
  syntax_errors <-
    for_each examples 0
      (fun syntax_errors example =>
         try_
           (call (IQLQuery_parse (iql_filters example) filter_list) ;;;
            call (IQLActions_parse (iql_actions example) action_list) ;;;
            ret syntax_errors)
           [(except ["IQLError"; "IQLUnsupportedSyntaxError"; "SyntaxError"],
             fun _ => ret (syntax_errors + 1));
            (except ["Exception"],
             fun exc => logger_warning exc ;;; ret syntax_errors)]) ;;
  n <- len dataset ;;
  py_truediv syntax_errors n.

(** The dict literal evaluates its values in source order. *)
Definition calculate_dataset_metrics
    (dataset : ref) (filter_list action_list : list ExposedFunction)
    : M (list (string * float)) :=
  valid_iql <- calculate_valid_iql dataset filter_list action_list ;;
  hallucinated_filters <-
    calculate_hallucinated_filters_for_dataset dataset filter_list ;;
  hallucinated_actions <-
    calculate_hallucinated_actions_for_dataset dataset action_list ;;
  syntax_errors <- calculate_syntax_errors dataset filter_list action_list ;;
  let metrics :=
    [("valid_iql", valid_iql);
     ("hallucinated_filters", hallucinated_filters);
     ("hallucinated_actions", hallucinated_actions);
     ("syntax_errors", syntax_errors)] in
  ret metrics.

End WithFrontEnd.
End Metrics.

(* ------------------------------------------------------------------ *)
(** ** The front end, after the specification *)

Declare Scope res_scope.
Delimit Scope res_scope with res.
Notation "x <- m ;; k" := (rbind m (fun x => k))
  (at level 61, m at next level, right associativity) : res_scope.
Notation "' p <- m ;; k" := (rbind m (fun p => k))
  (at level 61, p pattern, m at next level, right associativity) : res_scope.

(** [f] on every element, left to right, stopping at the first that
    raises. *)
Fixpoint mapM {A B} (f : A -> result B) (xs : list A) : result (list B) :=
  match xs with
  | [] => Ok []
  | x :: xs' =>
      rbind (f x) (fun y => rbind (mapM f xs') (fun ys => Ok (y :: ys)))
  end.

(** *** Characters *)

Module Chars.

Definition newline : ascii := ascii_of_nat 10.
Definition dquote : ascii := ascii_of_nat 34.
Definition squote : ascii := ascii_of_nat 39.
Definition backslash : ascii := ascii_of_nat 92.

Definition in_range (lo hi : nat) (c : ascii) : bool :=
  (Nat.leb lo (nat_of_ascii c) && Nat.leb (nat_of_ascii c) hi)%bool.

Definition is_open (c : ascii) : bool := Ascii.eqb c "("%char.
Definition is_close (c : ascii) : bool := Ascii.eqb c ")"%char.
Definition is_quote (c : ascii) : bool :=
  (Ascii.eqb c squote || Ascii.eqb c dquote)%bool.
Definition is_hash (c : ascii) : bool := Ascii.eqb c "#"%char.
Definition is_newline (c : ascii) : bool := Ascii.eqb c newline.
Definition is_space (c : ascii) : bool :=
  (Ascii.eqb c " "%char || Ascii.eqb c (ascii_of_nat 9))%bool.
Definition is_comma (c : ascii) : bool := Ascii.eqb c ","%char.
Definition is_dot (c : ascii) : bool := Ascii.eqb c "."%char.
Definition is_digit (c : ascii) : bool := in_range 48 57 c.
Definition is_name_start (c : ascii) : bool :=
  (in_range 97 122 c || in_range 65 90 c || Ascii.eqb c "_"%char)%bool.
Definition is_name_char (c : ascii) : bool :=
  (is_name_start c || is_digit c)%bool.

(** The string of characters collected last-first. *)
Definition string_of_rev (acc : list ascii) : string :=
  string_of_list_ascii (rev acc).

Definition digit_value (c : ascii) : Z := Z.of_nat (nat_of_ascii c) - 48.

(** The number the decimal digits write, most significant first. *)
Definition Z_of_digits (ds : list ascii) : Z :=
  fold_left (fun n c => 10 * n + digit_value c) ds 0.

(** [str(n)] for an [int]. *)
Definition str_of_Z (n : Z) : string := NilZero.string_of_int (Z.to_int n).

End Chars.
Import Chars.

(** *** Tokens and the lexer *)

(** Modelled from the spec: the tolerant parse pass is [ast.parse] of the
    host language, a collaborator outside the sources.  The model covers
    the surface the IQL grammar is cut from: names, integer and float
    literals, single-line string literals in single or double quotes
    without escapes, calls, [and], [or], [not], parentheses, comments and
    newline-separated statements.  Text outside this surface raises
    [SyntaxError]. *)
Module Lexer.

Inductive token : Type :=
| NAME (s : string)
| INT (n : Z)
| FLOAT (int_part frac_part : string)
| STR (s : string)
| LPAR
| RPAR
| COMMA
| NEWLINE.

(** What the lexer is in the middle of. *)
Inductive lstate : Type :=
| LStart
| LName (acc : list ascii)
| LInt (acc : list ascii)
| LFrac (int_acc frac_acc : list ascii)
| LStr (q : ascii) (acc : list ascii)
| LComment.

Definition emit (t : token) (r : result (list token)) : result (list token) :=
  rmap (cons t) r.

(** A decimal integer literal; a nonzero one has no leading zero. *)
Definition int_token (acc : list ascii) : result token :=
  let ds := rev acc in
  match ds with
  | c :: _ :: _ =>
      if (Ascii.eqb c "0"%char && negb (Z_of_digits ds =? 0))%bool
      then Raise (SyntaxError
             "leading zeros in decimal integer literals are not permitted")
      else Ok (INT (Z_of_digits ds))
  | _ => Ok (INT (Z_of_digits ds))
  end.

(** The token a finished state stands for, if any. *)
Definition flush (st : lstate) (r : result (list token))
    : result (list token) :=
  match st with
  | LStart | LComment => r
  | LName acc => emit (NAME (string_of_rev acc)) r
  | LInt acc => rbind (int_token acc) (fun t => emit t r)
  | LFrac ip fp => emit (FLOAT (string_of_rev ip) (string_of_rev fp)) r
  | LStr _ _ => Raise (SyntaxError "unterminated string literal")
  end.

(** One character read between tokens, at parenthesis depth [depth]; [k]
    lexes the rest.  Inside parentheses a newline separates nothing. *)
Definition lex_code (c : ascii) (depth : nat)
    (k : lstate -> nat -> result (list token)) : result (list token) :=
  if is_open c then emit LPAR (k LStart (S depth))
  else if is_close c then
    match depth with
    | O => Raise (SyntaxError "unmatched ')'")
    | S d => emit RPAR (k LStart d)
    end
  else if is_quote c then k (LStr c []) depth
  else if is_hash c then k LComment depth
  else if is_newline c then
    match depth with
    | O => emit NEWLINE (k LStart depth)
    | S _ => k LStart depth
    end
  else if is_space c then k LStart depth
  else if is_comma c then emit COMMA (k LStart depth)
  else if is_name_start c then k (LName [c]) depth
  else if is_digit c then k (LInt [c]) depth
  else Raise (SyntaxError "invalid character").

Fixpoint lex (cs : list ascii) (st : lstate) (depth : nat)
    : result (list token) :=
  match cs with
  | [] =>
      match depth with
      | O => flush st (Ok [])
      | S _ =>
          match st with
          | LStr _ _ => Raise (SyntaxError "unterminated string literal")
          | _ => Raise (SyntaxError "'(' was never closed")
          end
      end
  | c :: cs' =>
      let k := fun st' depth' => lex cs' st' depth' in
      match st with
      | LStart => lex_code c depth k
      | LName acc =>
          if is_name_char c then k (LName (c :: acc)) depth
          else flush st (lex_code c depth k)
      | LInt acc =>
          if is_digit c then k (LInt (c :: acc)) depth
          else if is_dot c then k (LFrac acc []) depth
          else if is_name_start c
          then Raise (SyntaxError "invalid decimal literal")
          else flush st (lex_code c depth k)
      | LFrac ip fp =>
          if is_digit c then k (LFrac ip (c :: fp)) depth
          else if (is_dot c || is_name_start c)%bool
          then Raise (SyntaxError "invalid decimal literal")
          else flush st (lex_code c depth k)
      | LStr q acc =>
          if Ascii.eqb c q then emit (STR (string_of_rev acc)) (k LStart depth)
          else if (is_newline c || Ascii.eqb c backslash)%bool
          then Raise (SyntaxError "unterminated string literal")
          else k (LStr q (c :: acc)) depth
      | LComment =>
          if is_newline c then lex_code c depth k else k LComment depth
      end
  end.

Definition tokenize (source : string) : result (list token) :=
  lex (list_ascii_of_string source) LStart 0.

End Lexer.
Import Lexer.

(** *** Syntax trees and the parser *)

Module PyAst.
Local Open Scope res_scope.

Inductive constant : Type :=
| CStr (s : string)
| CInt (n : Z)
| CFloat (int_part frac_part : string)
| CBool (b : bool)
| CNone.

Inductive boolop : Type := And | Or.
Inductive unaryop : Type := Not.

#[warnings="-register-all"]
Inductive expr : Type :=
| Name (id : string)
| Constant (value : constant)
| Call (func : expr) (args : list expr)
| BoolOp (op : boolop) (values : list expr)
| UnaryOp (op : unaryop) (operand : expr).

Inductive stmt : Type :=
| Expr (value : expr).

Record module : Type := Module_ { body : list stmt }.

(** The reserved words; none of them is a name. *)
Definition keywords : list string :=
  ["False"; "None"; "True"; "and"; "as"; "assert"; "async"; "await";
   "break"; "class"; "continue"; "def"; "del"; "elif"; "else"; "except";
   "finally"; "for"; "from"; "global"; "if"; "import"; "in"; "is";
   "lambda"; "nonlocal"; "not"; "or"; "pass"; "raise"; "return"; "try";
   "while"; "with"; "yield"].

Definition invalid_syntax {A} : result A := Raise (SyntaxError "invalid syntax").
Definition too_deep {A} : result A := Raise RecursionError.

(** [a op b op c] is one [BoolOp] over all operands; a single operand
    stands for itself. *)
Definition mk_boolop (op : boolop) (first : expr) (others : list expr)
    : expr :=
  match others with
  | [] => first
  | _ :: _ => BoolOp op (first :: others)
  end.

Definition atom_of_name (s : string) : result expr :=
  if String.eqb s "True" then Ok (Constant (CBool true))
  else if String.eqb s "False" then Ok (Constant (CBool false))
  else if String.eqb s "None" then Ok (Constant CNone)
  else if py_in s keywords then invalid_syntax
  else Ok (Name s).

(** Recursive descent, one unit of fuel per call in flight. *)
Fixpoint parse_disjunction (fuel : nat) (ts : list token) {struct fuel}
    : result (expr * list token) :=
  match fuel with
  | O => too_deep
  | S fuel' =>
      ' (e, ts1) <- parse_conjunction fuel' ts ;;
      ' (es, ts2) <- parse_or_tail fuel' ts1 ;;
      Ok (mk_boolop Or e es, ts2)
  end
with parse_or_tail (fuel : nat) (ts : list token) {struct fuel}
    : result (list expr * list token) :=
  match fuel with
  | O => too_deep
  | S fuel' =>
      match ts with
      | NAME s :: ts1 =>
          if String.eqb s "or" then
            ' (e, ts2) <- parse_conjunction fuel' ts1 ;;
            ' (es, ts3) <- parse_or_tail fuel' ts2 ;;
            Ok (e :: es, ts3)
          else Ok ([], ts)
      | _ => Ok ([], ts)
      end
  end
with parse_conjunction (fuel : nat) (ts : list token) {struct fuel}
    : result (expr * list token) :=
  match fuel with
  | O => too_deep
  | S fuel' =>
      ' (e, ts1) <- parse_inversion fuel' ts ;;
      ' (es, ts2) <- parse_and_tail fuel' ts1 ;;
      Ok (mk_boolop And e es, ts2)
  end
with parse_and_tail (fuel : nat) (ts : list token) {struct fuel}
    : result (list expr * list token) :=
  match fuel with
  | O => too_deep
  | S fuel' =>
      match ts with
      | NAME s :: ts1 =>
          if String.eqb s "and" then
            ' (e, ts2) <- parse_inversion fuel' ts1 ;;
            ' (es, ts3) <- parse_and_tail fuel' ts2 ;;
            Ok (e :: es, ts3)
          else Ok ([], ts)
      | _ => Ok ([], ts)
      end
  end
with parse_inversion (fuel : nat) (ts : list token) {struct fuel}
    : result (expr * list token) :=
  match fuel with
  | O => too_deep
  | S fuel' =>
      match ts with
      | NAME s :: ts1 =>
          if String.eqb s "not" then
            ' (e, ts2) <- parse_inversion fuel' ts1 ;;
            Ok (UnaryOp Not e, ts2)
          else parse_primary fuel' ts
      | _ => parse_primary fuel' ts
      end
  end
with parse_primary (fuel : nat) (ts : list token) {struct fuel}
    : result (expr * list token) :=
  match fuel with
  | O => too_deep
  | S fuel' =>
      match ts with
      | NAME s :: ts1 =>
          e <- atom_of_name s ;; parse_trailers fuel' e ts1
      | INT n :: ts1 => parse_trailers fuel' (Constant (CInt n)) ts1
      | FLOAT ip fp :: ts1 =>
          parse_trailers fuel' (Constant (CFloat ip fp)) ts1
      | STR s :: ts1 => parse_trailers fuel' (Constant (CStr s)) ts1
      | LPAR :: ts1 =>
          ' (e, ts2) <- parse_disjunction fuel' ts1 ;;
          match ts2 with
          | RPAR :: ts3 => parse_trailers fuel' e ts3
          | _ => invalid_syntax
          end
      | _ => invalid_syntax
      end
  end
with parse_trailers (fuel : nat) (e : expr) (ts : list token) {struct fuel}
    : result (expr * list token) :=
  match fuel with
  | O => too_deep
  | S fuel' =>
      match ts with
      | LPAR :: ts1 =>
          ' (args, ts2) <- parse_args fuel' ts1 ;;
          parse_trailers fuel' (Call e args) ts2
      | _ => Ok (e, ts)
      end
  end
with parse_args (fuel : nat) (ts : list token) {struct fuel}
    : result (list expr * list token) :=
  match fuel with
  | O => too_deep
  | S fuel' =>
      match ts with
      | RPAR :: ts1 => Ok ([], ts1)
      | _ =>
          ' (e, ts1) <- parse_disjunction fuel' ts ;;
          match ts1 with
          | COMMA :: ts2 =>
              ' (es, ts3) <- parse_args fuel' ts2 ;;
              Ok (e :: es, ts3)
          | RPAR :: ts2 => Ok ([e], ts2)
          | _ => invalid_syntax
          end
      end
  end.

(** The statements of a module: expressions, one per logical line. *)
Fixpoint parse_statements (fuel : nat) (ts : list token) {struct fuel}
    : result (list stmt) :=
  match fuel with
  | O => too_deep
  | S fuel' =>
      match ts with
      | [] => Ok []
      | NEWLINE :: ts1 => parse_statements fuel' ts1
      | _ =>
          ' (e, ts1) <- parse_disjunction fuel' ts ;;
          match ts1 with
          | [] => Ok [Expr e]
          | NEWLINE :: ts2 =>
              rest <- parse_statements fuel' ts2 ;;
              Ok (Expr e :: rest)
          | _ => invalid_syntax
          end
      end
  end.

(** Fuel that covers every call in flight: six per token and five more
    are enough, see [ParserFacts]. *)
Definition fuel_for (ts : list token) : nat := 8 * S (List.length ts).

(** [ast.parse(source)]. *)
Definition parse (source : string) : result module :=
  ts <- tokenize source ;;
  stmts <- parse_statements (fuel_for ts) ts ;;
  Ok (Module_ stmts).

End PyAst.
Import PyAst.

(** Modelled from the spec: [MethodCallVisitor] of
    [dbally_benchmark.iql.method_call_visitor] is outside the sources.  The
    best-effort extraction lists the name of every call whose callee is a
    plain name, in visiting order: a call before the calls among its
    arguments. *)
Module MethodCallVisitor.

Fixpoint visit (e : expr) : list string :=
  match e with
  | Name _ | Constant _ => []
  | Call func args =>
      match func with Name id => [id] | _ => visit func end
      ++ (fix visit_all (es : list expr) : list string :=
            match es with
            | [] => []
            | e' :: es' => visit e' ++ visit_all es'
            end) args
  | BoolOp _ values =>
      (fix visit_all (es : list expr) : list string :=
         match es with
         | [] => []
         | e' :: es' => visit e' ++ visit_all es'
         end) values
  | UnaryOp _ operand => visit operand
  end.

Definition get_method_calls (tree : module) : result (list string) :=
  Ok (flat_map (fun '(Expr e) => visit e) (body tree)).

End MethodCallVisitor.


(** *** The IQL grammar and the validator *)

(** Modelled from the spec: [dbally.iql] is outside the sources.  The
    grammar (sections 4.1 and 6) is the tolerant grammar cut down to calls
    of a plain name on literal arguments, joined by [and] in a filter
    source and one per line in an action source; the validator (section 4.2)
    resolves each call against the registry entries and stops at the first
    error. *)
Module Iql.
Local Open Scope res_scope.

Definition IQLError (msg : string) : exn := Exn "IQLError" [] msg.
Definition IQLUnsupportedSyntaxError (msg : string) : exn :=
  Exn "IQLUnsupportedSyntaxError" [] msg.
Definition UnsupportedOperation (op : string) : exn :=
  Exn "UnsupportedOperation" [] op.
Definition ArityMismatch (op : string) : exn := Exn "ArityMismatch" [] op.
Definition TypeMismatch (op : string) : exn := Exn "TypeMismatch" [] op.
Definition UnresolvedSimilarityValue (raw : string) : exn :=
  Exn "UnresolvedSimilarityValue" [] raw.

(** One invocation as written: the name and the literal arguments. *)
Record ParsedCall : Type := {
  call_name : string;
  call_args : list constant
}.

(** A call resolved against the registry: the operation and the arguments
    coerced to its declared parameter types. *)
Record ValidatedCall : Type := {
  operation : ExposedFunction;
  arguments : list constant
}.

Definition parse_literal (e : expr) : result constant :=
  match e with
  | Constant CNone => Raise (IQLUnsupportedSyntaxError "argument")
  | Constant c => Ok c
  | _ => Raise (IQLUnsupportedSyntaxError "argument")
  end.

Definition parse_call (e : expr) : result ParsedCall :=
  match e with
  | Call (Name id) args =>
      literals <- mapM parse_literal args ;;
      Ok {| call_name := id; call_args := literals |}
  | _ => Raise (IQLUnsupportedSyntaxError "call")
  end.

(** A filter source: zero or more calls joined by [and]. *)
Definition parse_filters (source : string) : result (list ParsedCall) :=
  tree <- PyAst.parse source ;;
  match body tree with
  | [] => Ok []
  | [Expr (BoolOp And values)] => mapM parse_call values
  | [Expr e] => call <- parse_call e ;; Ok [call]
  | _ => Raise (IQLUnsupportedSyntaxError "statement")
  end.

(** An action source: calls, one per line. *)
Definition parse_actions (source : string) : result (list ParsedCall) :=
  tree <- PyAst.parse source ;;
  mapM (fun '(Expr e) => parse_call e) (body tree).

Section Validator.
(** The similarity collaborator: the named resolver applied to a raw
    value. *)
Variable resolve : string -> string -> option string.

Definition coerce (op : string) (p : MethodParam) (c : constant)
    : result constant :=
  match param_type p, c with
  | TyStr, CStr raw =>
      match similarity_hint p with
      | None => Ok c
      | Some hint =>
          match resolve hint raw with
          | Some v => Ok (CStr v)
          | None => Raise (UnresolvedSimilarityValue raw)
          end
      end
  | TyInt, CInt _ => Ok c
  | TyFloat, CFloat _ _ => Ok c
  | TyFloat, CInt n => Ok (CFloat (str_of_Z n) "0")
  | TyBool, CBool _ => Ok c
  | _, _ => Raise (TypeMismatch op)
  end.

Fixpoint coerce_all (op : string) (ps : list MethodParam)
    (cs : list constant) : result (list constant) :=
  match ps, cs with
  | [], [] => Ok []
  | p :: ps', c :: cs' =>
      v <- coerce op p c ;;
      vs <- coerce_all op ps' cs' ;;
      Ok (v :: vs)
  | _, _ => Raise (ArityMismatch op)
  end.

Definition validate_call (registry_entries : list ExposedFunction)
    (call : ParsedCall) : result ValidatedCall :=
  match find (fun op => String.eqb (name op) (call_name call))
             registry_entries with
  | None => Raise (UnsupportedOperation (call_name call))
  | Some op =>
      if Nat.eqb (List.length (parameters op)) (List.length (call_args call))
      then
        vs <- coerce_all (name op) (parameters op) (call_args call) ;;
        Ok {| operation := op; arguments := vs |}
      else Raise (ArityMismatch (name op))
  end.

Definition validate (calls : list ParsedCall)
    (registry_entries : list ExposedFunction) : result (list ValidatedCall) :=
  mapM (validate_call registry_entries) calls.

(** [IQLQuery.parse(source, allowed_functions)]: full parse, then
    validation. *)
Definition IQLQuery_parse (source : string)
    (allowed_functions : list ExposedFunction) : result (list ValidatedCall) :=
  calls <- parse_filters source ;;
  validate calls allowed_functions.

(** [IQLActions.parse(source, allowed_functions)]. *)
Definition IQLActions_parse (source : string)
    (allowed_functions : list ExposedFunction) : result (list ValidatedCall) :=
  calls <- parse_actions source ;;
  validate calls allowed_functions.

End Validator.
End Iql.

(** *** The query builder, views and the runner *)

(** Modelled from the spec: the query-building library is an external
    collaborator (section 6).  A query is the data the scenarios build: the
    projected columns, the predicate fragments joined by AND, the ordering
    and the limit; [render] lays them out as the library prints a
    statement. *)
Module Sql.

Inductive sqlexpr : Type :=
| Literal (c : constant)
| Label (name : string).

Record Select : Type := {
  columns : list (sqlexpr * option string);
  whereclause : list sqlexpr;
  order_by_clauses : list sqlexpr;
  limit_clause : option Z
}.

Definition select (cols : list (sqlexpr * option string)) : Select :=
  {| columns := cols; whereclause := []; order_by_clauses := [];
     limit_clause := None |}.

Definition where_ (q : Select) (fragments : list sqlexpr) : Select :=
  {| columns := columns q; whereclause := whereclause q ++ fragments;
     order_by_clauses := order_by_clauses q; limit_clause := limit_clause q |}.

Definition order_by (q : Select) (e : sqlexpr) : Select :=
  {| columns := columns q; whereclause := whereclause q;
     order_by_clauses := order_by_clauses q ++ [e];
     limit_clause := limit_clause q |}.

Definition limit (q : Select) (n : Z) : Select :=
  {| columns := columns q; whereclause := whereclause q;
     order_by_clauses := order_by_clauses q; limit_clause := Some n |}.

(** A quote inside a string literal is written twice. *)
Fixpoint escape (s : string) : string :=
  match s with
  | EmptyString => EmptyString
  | String c s' =>
      if Ascii.eqb c squote then String c (String c (escape s'))
      else String c (escape s')
  end.

Definition render_constant (c : constant) : string :=
  match c with
  | CStr s => ("'" ++ escape s ++ "'")%string
  | CInt n => str_of_Z n
  | CFloat ip fp => (ip ++ "." ++ fp)%string
  | CBool true => "true"
  | CBool false => "false"
  | CNone => "NULL"
  end.

Definition render_expr (e : sqlexpr) : string :=
  match e with
  | Literal c => render_constant c
  | Label name => name
  end.

Definition render_column (col : sqlexpr * option string) : string :=
  match col with
  | (e, Some label) => (render_expr e ++ " AS " ++ label)%string
  | (e, None) => render_expr e
  end.

Definition nl : string := String newline EmptyString.

Definition render (q : Select) : string :=
  ("SELECT " ++ String.concat ", " (map render_column (columns q))
   ++ match whereclause q with
      | [] => ""
      | fragments =>
          " " ++ nl ++ "WHERE " ++ String.concat " AND " (map render_expr fragments)
      end
   ++ match order_by_clauses q with
      | [] => ""
      | clauses => " ORDER BY " ++ String.concat ", " (map render_expr clauses)
      end
   ++ match limit_clause q with
      | None => ""
      | Some n => nl ++ " LIMIT " ++ str_of_Z n
      end)%string.

(** [s.replace(newline, empty)]. *)
Fixpoint remove_newlines (s : string) : string :=
  match s with
  | EmptyString => EmptyString
  | String c s' =>
      if Ascii.eqb c newline then remove_newlines s'
      else String c (remove_newlines s')
  end.

End Sql.
Import Sql.

(** Modelled from the spec: [dbally.views] is outside the sources.  A view
    declares its base query and its exposed operations, each descriptor
    with the callable bound to it (sections 3, 4.3 and 9). *)
Module Views.
Import Iql.
Local Open Scope res_scope.

Record View : Type := {
  view_name : string;
  get_select : Select;
  filters : list (ExposedFunction * (list constant -> result sqlexpr));
  actions :
    list (ExposedFunction * (Select -> list constant -> result Select))
}.

Definition list_filters (v : View) : list ExposedFunction :=
  map fst (filters v).
Definition list_actions (v : View) : list ExposedFunction :=
  map fst (actions v).

Definition AttributeError (attr : string) : exn :=
  Exn "AttributeError" [] attr.
Definition KeyError (key : string) : exn :=
  Exn "KeyError" ["LookupError"] key.
Definition TypeError (msg : string) : exn := Exn "TypeError" [] msg.

Definition call_filter (v : View) (call : ValidatedCall) : result sqlexpr :=
  match find (fun entry => String.eqb (name (fst entry))
                             (name (operation call))) (filters v) with
  | Some (_, method) => method (arguments call)
  | None => Raise (AttributeError (name (operation call)))
  end.

Definition call_action (v : View) (q : Select) (call : ValidatedCall)
    : result Select :=
  match find (fun entry => String.eqb (name (fst entry))
                             (name (operation call))) (actions v) with
  | Some (_, method) => method q (arguments call)
  | None => Raise (AttributeError (name (operation call)))
  end.

(** Actions are applied left to right, each to the query the previous one
    left. *)
Fixpoint apply_action_calls (v : View) (q : Select)
    (calls : list ValidatedCall) : result Select :=
  match calls with
  | [] => Ok q
  | call :: calls' =>
      q' <- call_action v q call ;;
      apply_action_calls v q' calls'
  end.

(** The fragments of all filters are joined by AND; no filter adds no
    predicate. *)
Definition apply_filter_calls (v : View) (q : Select)
    (calls : list ValidatedCall) : result Select :=
  fragments <- mapM (call_filter v) calls ;;
  Ok (where_ q fragments).

Definition compile (calls_filters calls_actions : list ValidatedCall)
    (view_instance : View) : result Select :=
  q <- apply_filter_calls view_instance (get_select view_instance)
         calls_filters ;;
  apply_action_calls view_instance q calls_actions.

(** The runner of [tests/unit/views/test_runner.py]: created for a view of
    the registry, it holds the query built so far. *)
Record Runner : Type := {
  runner_view : View;
  runner_select : Select
}.

Section WithResolver.
Variable resolve : string -> string -> option string.

Definition new_runner (view_name_ : string) (registry : list View)
    : result Runner :=
  match find (fun v => String.eqb (view_name v) view_name_) registry with
  | Some v => Ok {| runner_view := v; runner_select := get_select v |}
  | None => Raise (KeyError view_name_)
  end.

Definition apply_filters (r : Runner) (filters_text : string)
    : result Runner :=
  calls <- IQLQuery_parse resolve filters_text
             (list_filters (runner_view r)) ;;
  q <- apply_filter_calls (runner_view r) (runner_select r) calls ;;
  Ok {| runner_view := runner_view r; runner_select := q |}.

Definition apply_actions (r : Runner) (actions_text : string)
    : result Runner :=
  calls <- IQLActions_parse resolve actions_text
             (list_actions (runner_view r)) ;;
  q <- apply_action_calls (runner_view r) (runner_select r) calls ;;
  Ok {| runner_view := runner_view r; runner_select := q |}.

Definition generate_sql (r : Runner) : string := render (runner_select r).

End WithResolver.

(** Modelled from the spec: [MockSqlAlchemyView] of
    [tests/unit/views/test_sqlalchemy_base.py] is outside the sources.  It
    exposes filters [method_foo(x)] and [method_bar(city, year)] and
    actions [action_baz()] and [action_qux(n)] over a base query that
    projects the literal ['test'] as [foo]. *)
Definition param (n : string) (t : ptype) : MethodParam :=
  {| param_name := n; param_type := t; similarity_hint := None |}.

Definition exposed (n : string) (ps : list MethodParam) : ExposedFunction :=
  {| name := n; description := ""; parameters := ps |}.

Definition method_foo (args : list constant) : result sqlexpr :=
  match args with
  | [CInt idx] => Ok (Literal (CInt idx))
  | _ => Raise (TypeError "method_foo")
  end.

Definition method_bar (args : list constant) : result sqlexpr :=
  match args with
  | [CStr city; CInt year] =>
      Ok (Literal (CStr ("hello " ++ city ++ " in " ++ str_of_Z year)%string))
  | _ => Raise (TypeError "method_bar")
  end.

Definition action_baz (q : Select) (args : list constant) : result Select :=
  match args with
  | [] => Ok (order_by q (Label "foo"))
  | _ => Raise (TypeError "action_baz")
  end.

Definition action_qux (q : Select) (args : list constant) : result Select :=
  match args with
  | [CInt n] => Ok (limit q n)
  | _ => Raise (TypeError "action_qux")
  end.

Definition MockSqlAlchemyView : View := {|
  view_name := "MockSqlAlchemyView";
  get_select := select [(Literal (CStr "test"), Some "foo")];
  filters :=
    [(exposed "method_foo" [param "x" TyInt], method_foo);
     (exposed "method_bar" [param "city" TyStr; param "year" TyInt],
      method_bar)];
  actions :=
    [(exposed "action_baz" [], action_baz);
     (exposed "action_qux" [param "n" TyInt], action_qux)]
|}.

End Views.

(** No parameter is resolved through a similarity index. *)
Definition no_similarity (hint raw : string) : option string := None.

(** The front end after the specification, as the collaborators of the
    metrics. *)
#[export] Instance spec_front_end : FrontEnd := {|
  AST := module;
  ast_parse := PyAst.parse;
  get_method_calls := MethodCallVisitor.get_method_calls;
  IQLQuery := list Iql.ValidatedCall;
  IQLQuery_parse := Iql.IQLQuery_parse no_similarity;
  IQLActions := list Iql.ValidatedCall;
  IQLActions_parse := Iql.IQLActions_parse no_similarity
|}.


(* ------------------------------------------------------------------ *)
(** ** What the metrics are compared with *)

Module Counts.

Definition count {A} (xs : list A) : Z := Z.of_nat (List.length xs).

Definition sum (zs : list Z) : Z := fold_right Z.add 0 zs.

(** [n / d] in lowest terms, 0 for an empty denominator. *)
Definition ratio (n d : Z) : float :=
  if d =? 0 then 0%Q else Qred (inject_Z n / inject_Z d).

(** The exception classes the syntax-error counter lists. *)
Definition syntax_kind (e : exn) : bool :=
  except ["IQLError"; "IQLUnsupportedSyntaxError"; "SyntaxError"] e.

(** The world with [es] logged after what was logged before. *)
Definition logged (w : World) (es : list exn) : World :=
  {| heap := heap w; sink := sink w ++ es |}.

(** The world with the list object [l] holding [examples]. *)
Definition store (l : ref) (examples : list IQLResult) (w : World) : World :=
  {| heap := fun l' => if Nat.eqb l' l then examples else heap w l';
     sink := sink w |}.

Section WithFrontEnd.
Context {FE : FrontEnd}.

(** The call names the best-effort extraction finds in a text; none when
    the extraction fails. *)
Definition extracted_names (iql : string) : list string :=
  match rbind (ast_parse iql) get_method_calls with
  | Ok names => names
  | Raise _ => []
  end.

(** The names that are not among the allowed ones. *)
Definition hallucinated (allowed : list string) (names : list string)
    : list string :=
  filter (fun method => negb (py_in method allowed)) names.

(** Over the texts of a dataset: the extracted calls with a name outside
    the allowed ones, and all extracted calls. *)
Definition hallucinated_calls (allowed : list string) (texts : list string)
    : Z :=
  sum (map (fun iql => count (hallucinated allowed (extracted_names iql)))
         texts).

Definition extracted_calls (texts : list string) : Z :=
  sum (map (fun iql => count (extracted_names iql)) texts).

(** The first failure of the full parse of an example: the filters text is
    parsed and validated first, the actions text after it. *)
Definition first_failure (filter_list action_list : list ExposedFunction)
    (example : IQLResult) : option exn :=
  match IQLQuery_parse (iql_filters example) filter_list with
  | Raise e => Some e
  | Ok _ =>
      match IQLActions_parse (iql_actions example) action_list with
      | Raise e => Some e
      | Ok _ => None
      end
  end.

(** Both texts pass full parse and validation. *)
Definition both_pass (filter_list action_list : list ExposedFunction)
    (example : IQLResult) : bool :=
  is_ok (IQLQuery_parse (iql_filters example) filter_list)
  && is_ok (IQLActions_parse (iql_actions example) action_list).

(** The example fails with an outcome of syntax-error kind. *)
Definition syntax_failure (filter_list action_list : list ExposedFunction)
    (example : IQLResult) : bool :=
  match first_failure filter_list action_list example with
  | Some e => syntax_kind e
  | None => false
  end.

(** The example fails with an outcome of another kind. *)
Definition semantic_failure (filter_list action_list : list ExposedFunction)
    (example : IQLResult) : list exn :=
  match first_failure filter_list action_list example with
  | Some e => if syntax_kind e then [] else [e]
  | None => []
  end.

Definition any_failure (filter_list action_list : list ExposedFunction)
    (example : IQLResult) : list exn :=
  match first_failure filter_list action_list example with
  | Some e => [e]
  | None => []
  end.

End WithFrontEnd.
End Counts.
Import Counts.

(** Parentheses outside string literals and comments, scanned on the
    characters alone. *)
Module Balance.

Inductive smode : Type :=
| SCode
| SString (q : ascii)
| SComment.

(** [true] when no closing parenthesis comes before its opening one and
    none is left open at the end. *)
Fixpoint paren_scan (cs : list ascii) (m : smode) (depth : nat) : bool :=
  match cs with
  | [] => Nat.eqb depth 0
  | c :: cs' =>
      match m with
      | SCode =>
          if is_open c then paren_scan cs' SCode (S depth)
          else if is_close c then
            match depth with
            | O => false
            | S d => paren_scan cs' SCode d
            end
          else if is_quote c then paren_scan cs' (SString c) depth
          else if is_hash c then paren_scan cs' SComment depth
          else paren_scan cs' SCode depth
      | SString q =>
          if Ascii.eqb c q then paren_scan cs' SCode depth
          else paren_scan cs' (SString q) depth
      | SComment =>
          if is_newline c then paren_scan cs' SCode depth
          else paren_scan cs' SComment depth
      end
  end.

Definition balanced_parens (text : string) : bool :=
  paren_scan (list_ascii_of_string text) SCode 0.

End Balance.
Import Balance.

(** The properties the facts below are stated with. *)
Module Props.

(** A computation that leaves every list object as it found it. *)
Definition preserves_heap {A} (m : M A) : Prop :=
  forall w, heap (snd (m w)) = heap w.

(** The result is a raised [SyntaxError]. *)
Definition raises_syntax_error {A} (r : result A) : Prop :=
  exists msg, r = Raise (SyntaxError msg).

(** A value that satisfies [P], or a raised [SyntaxError]. *)
Definition syntax_or {A} (P : A -> Prop) (r : result A) : Prop :=
  match r with
  | Ok a => P a
  | Raise e => exists msg, e = SyntaxError msg
  end.

(** The call returns with strictly fewer tokens left, or raises
    [SyntaxError]. *)
Definition consumes {A} (ts : list token) (r : result (A * list token))
    : Prop :=
  syntax_or (fun p => (List.length (snd p) < List.length ts)%nat) r.

(** The call returns with no more tokens left, or raises [SyntaxError]. *)
Definition keeps {A} (ts : list token) (r : result (A * list token)) : Prop :=
  syntax_or (fun p => (List.length (snd p) <= List.length ts)%nat) r.

(** The scanning mode the lexer state corresponds to. *)
Definition mode_of (st : lstate) : smode :=
  match st with
  | LStr q _ => SString q
  | LComment => SComment
  | _ => SCode
  end.

(** Neither a parenthesis nor the start of a string or a comment. *)
Definition plain (c : ascii) : bool :=
  negb (is_open c || is_close c || is_quote c || is_hash c).

End Props.
Import Props.

(** Datasets over the registry of [MockSqlAlchemyView]. *)
Module Examples.
Import Views.

Definition mock_filters : list ExposedFunction :=
  list_filters MockSqlAlchemyView.
Definition mock_actions : list ExposedFunction :=
  list_actions MockSqlAlchemyView.

Definition record (filters_text actions_text : string) : IQLResult :=
  {| iql_filters := filters_text; iql_actions := actions_text;
     ground_truth := "" |}.

Definition valid_record : IQLResult :=
  record "method_foo(1) and method_bar('London', 2020)"
         ("action_baz()" ++ nl ++ "action_qux(5)")%string.

Definition hallucinating_record : IQLResult :=
  record "bad_method(1) and method_bar('Paris', 5)" "action_baz()".

Definition disjunctive_record : IQLResult :=
  record "method_foo(1) or bad_method(2)" "action_baz()".

Definition nested_record : IQLResult :=
  record "method_foo(other_method(1))" "action_baz()".

Definition unbalanced_record : IQLResult :=
  record "method_bar('London', 2020" "action_baz()".

(** No list object holds anything, nothing was logged. *)
Definition empty_world : World := {| heap := fun _ => []; sink := [] |}.

End Examples.

(** Further material for the examples of the properties. *)
Module MoreExamples.

(** A front end whose exception classes all derive from [IQLError]: the
    front end after the specification, every exception of a full parse
    raised as an instance of a subclass of [IQLError]. *)
Definition as_IQLError {A} (r : result A) : result A :=
  match r with
  | Ok a => Ok a
  | Raise e =>
      Raise (Exn (exn_class e) ("IQLError" :: exn_bases e) (exn_msg e))
  end.

Definition derived_front_end : FrontEnd := {|
  AST := module;
  ast_parse := PyAst.parse;
  get_method_calls := MethodCallVisitor.get_method_calls;
  IQLQuery := list Iql.ValidatedCall;
  IQLQuery_parse := fun source allowed_functions =>
    as_IQLError (Iql.IQLQuery_parse no_similarity source allowed_functions);
  IQLActions := list Iql.ValidatedCall;
  IQLActions_parse := fun source allowed_functions =>
    as_IQLError (Iql.IQLActions_parse no_similarity source allowed_functions)
|}.

(** The example with another actions text. *)
Definition with_actions (example : IQLResult) (actions_text : string)
    : IQLResult :=
  {| iql_filters := iql_filters example; iql_actions := actions_text;
     ground_truth := ground_truth example |}.

End MoreExamples.
Import MoreExamples.

(** The stages of the full parse after the specification. *)
Module Stages.
Import Iql Examples.

(** What the full parse of a text comes to: it passes, the grammar rejects
    the text, or the validator rejects one of its calls. *)
Inductive outcome : Type :=
| Passes
| SyntaxErrorOutcome (e : exn)
| SemanticErrorOutcome (e : exn).

Definition text_outcome (parse : string -> result (list ParsedCall))
    (source : string) (registry_entries : list ExposedFunction) : outcome :=
  match parse source with
  | Raise e => SyntaxErrorOutcome e
  | Ok calls =>
      match validate no_similarity calls registry_entries with
      | Raise e => SemanticErrorOutcome e
      | Ok _ => Passes
      end
  end.

(** The outcome of an example: that of its filters text, and when that
    passes, that of its actions text. *)
Definition example_outcome (filter_list action_list : list ExposedFunction)
    (example : IQLResult) : outcome :=
  match text_outcome parse_filters (iql_filters example) filter_list with
  | Passes => text_outcome parse_actions (iql_actions example) action_list
  | failed => failed
  end.

Definition syntax_error_outcome
    (filter_list action_list : list ExposedFunction) (example : IQLResult)
    : bool :=
  match example_outcome filter_list action_list example with
  | SyntaxErrorOutcome _ => true
  | _ => false
  end.

Definition semantic_error_outcome
    (filter_list action_list : list ExposedFunction) (example : IQLResult)
    : list exn :=
  match example_outcome filter_list action_list example with
  | SemanticErrorOutcome e => [e]
  | _ => []
  end.

(** A grammar violation: raised by the tolerant parse or by the cut to the
    IQL grammar. *)
Definition grammar_violation (e : exn) : Prop :=
  exists msg, e = SyntaxError msg \/ e = IQLUnsupportedSyntaxError msg.

(** A semantic violation: unknown operation, arity mismatch, type
    mismatch, or a similarity value that is not resolved. *)
Definition semantic_violation (e : exn) : Prop :=
  exists detail,
    e = UnsupportedOperation detail \/ e = ArityMismatch detail
    \/ e = TypeMismatch detail \/ e = UnresolvedSimilarityValue detail.

(** A value, or a raised exception that satisfies [P]. *)
Definition raises_only {A} (P : exn -> Prop) (r : result A) : Prop :=
  match r with Ok _ => True | Raise e => P e end.

(** A known filter with one argument too many, and with an argument of
    the wrong type. *)
Definition arity_record : IQLResult :=
  record "method_foo(1, 2)" "action_baz()".

Definition type_record : IQLResult :=
  record "method_foo('one')" "action_baz()".

End Stages.
Import Stages.

(* ------------------------------------------------------------------ *)
(** ** Facts about the metrics, for every front end *)

Module MetricsFacts.
Import Metrics.

Lemma logged_nil (w : World) : logged w [] = w.
Proof. destruct w; unfold logged; simpl; now rewrite app_nil_r. Qed.

Lemma logged_logged (w : World) (es es' : list exn) :
  logged (logged w es) es' = logged w (es ++ es').
Proof. unfold logged; simpl; now rewrite app_assoc. Qed.

Lemma heap_store (l : ref) (examples : list IQLResult) (w : World) :
  heap (store l examples w) l = examples.
Proof. unfold store; simpl; now rewrite Nat.eqb_refl. Qed.

Lemma count_app {A} (xs ys : list A) : count (xs ++ ys) = count xs + count ys.
Proof. unfold count; rewrite length_app; lia. Qed.

Lemma sum_app (xs ys : list Z) : sum (xs ++ ys) = sum xs + sum ys.
Proof. induction xs as [|x xs IH]; simpl; lia. Qed.

Lemma count_cons {A} (x : A) (xs : list A) : count (x :: xs) = 1 + count xs.
Proof. unfold count; simpl List.length; lia. Qed.

(** A guarded division is the ratio. *)
Lemma guarded_truediv (n d : Z) (w : World) :
  (if d =? 0 then ret 0%Q else py_truediv n d) w = (Ok (ratio n d), w).
Proof.
  unfold ratio, py_truediv; destruct (d =? 0); reflexivity.
Qed.

Lemma truediv_nonzero (n d : Z) (w : World) :
  d <> 0 -> py_truediv n d w = (Ok (ratio n d), w).
Proof.
  intros Hd; unfold ratio, py_truediv.
  destruct (d =? 0) eqn:E; [apply Z.eqb_eq in E; contradiction | reflexivity].
Qed.

Section WithFrontEnd.
Context {FE : FrontEnd}.

(** The counting loop over the predicted methods. *)
Lemma count_loop (allowed : list string) (names : list string) (c : Z) :
  fold_left
    (fun count method =>
       if negb (py_in method allowed) then count + 1 else count)
    names c
  = c + count (hallucinated allowed names).
Proof.
  revert c; induction names as [|m names IH]; intros c; simpl.
  - unfold count; simpl; lia.
  - rewrite IH; destruct (negb (py_in m allowed)); simpl.
    + rewrite count_cons; lia.
    + reflexivity.
Qed.

(** One example: the counts of the extracted names, the world as before. *)
Lemma single_example (iql : string) (allowed : list string) (w : World) :
  _count_hallucinated_methods_for_single_example iql allowed w
  = (Ok (count (hallucinated allowed (extracted_names iql)),
         count (extracted_names iql)), w).
Proof.
  unfold _count_hallucinated_methods_for_single_example, extracted_names,
    try_, bind, call, ret.
  destruct (rbind (ast_parse iql) get_method_calls) as [names|e]; simpl.
  - now rewrite count_loop.
  - reflexivity.
Qed.

(** The loop over the dataset sums the per-example counts. *)
Lemma hallucinated_loop (text : IQLResult -> string) (allowed : list string)
    (examples : list IQLResult) (h t : Z) (w : World) :
  for_each examples (h, t)
    (fun '(hc, tc) example =>
       bind (_count_hallucinated_methods_for_single_example
               (text example) allowed)
            (fun '(h', t') => ret (hc + h', tc + t'))) w
  = (Ok (h + hallucinated_calls allowed (map text examples),
         t + extracted_calls (map text examples)), w).
Proof.
  revert h t; induction examples as [|ex examples IH]; intros h t.
  - unfold hallucinated_calls, extracted_calls; simpl.
    now rewrite !Z.add_0_r.
  - simpl for_each. unfold bind at 1. unfold bind at 1.
    rewrite single_example. unfold ret at 1.
    rewrite IH. unfold hallucinated_calls, extracted_calls; simpl.
    do 3 f_equal; lia.
Qed.

Lemma hallucinated_filters_run (dataset : ref)
    (filter_list : list ExposedFunction) (w : World) :
  calculate_hallucinated_filters_for_dataset dataset filter_list w
  = (Ok (ratio (hallucinated_calls (map name filter_list)
                  (map iql_filters (heap w dataset)))
               (extracted_calls (map iql_filters (heap w dataset)))), w).
Proof.
  unfold calculate_hallucinated_filters_for_dataset.
  unfold bind at 1, iter. unfold bind at 1.
  rewrite (hallucinated_loop iql_filters). simpl.
  apply guarded_truediv.
Qed.

Lemma hallucinated_actions_run (dataset : ref)
    (action_list : list ExposedFunction) (w : World) :
  calculate_hallucinated_actions_for_dataset dataset action_list w
  = (Ok (ratio (hallucinated_calls (map name action_list)
                  (map iql_actions (heap w dataset)))
               (extracted_calls (map iql_actions (heap w dataset)))), w).
Proof.
  unfold calculate_hallucinated_actions_for_dataset.
  unfold bind at 1, iter. unfold bind at 1.
  rewrite (hallucinated_loop iql_actions). simpl.
  apply guarded_truediv.
Qed.

(** One turn of the validity loop. *)
Lemma valid_step (filter_list action_list : list ExposedFunction)
    (valid_iql : Z) (example : IQLResult) (w : World) :
  try_
    (bind (call (IQLQuery_parse (iql_filters example) filter_list)) (fun _ =>
     bind (call (IQLActions_parse (iql_actions example) action_list)) (fun _ =>
     ret (valid_iql + 1))))
    [(except ["Exception"],
      fun exc => bind (logger_warning exc) (fun _ => ret valid_iql))] w
  = (Ok (valid_iql
         + count (filter (both_pass filter_list action_list) [example])),
     logged w (any_failure filter_list action_list example)).
Proof.
  unfold try_, bind, call, ret, both_pass, any_failure, first_failure.
  cbn [filter].
  destruct (IQLQuery_parse (iql_filters example) filter_list) as [q|e];
    [destruct (IQLActions_parse (iql_actions example) action_list) as [a|e]|];
    simpl; rewrite ?logged_nil, ?Z.add_0_r; reflexivity.
Qed.

Lemma valid_loop (filter_list action_list : list ExposedFunction)
    (examples : list IQLResult) (valid_iql : Z) (w : World) :
  for_each examples valid_iql
    (fun valid_iql example =>
       try_
         (bind (call (IQLQuery_parse (iql_filters example) filter_list))
            (fun _ =>
          bind (call (IQLActions_parse (iql_actions example) action_list))
            (fun _ => ret (valid_iql + 1))))
         [(except ["Exception"],
           fun exc => bind (logger_warning exc) (fun _ => ret valid_iql))]) w
  = (Ok (valid_iql
         + count (filter (both_pass filter_list action_list) examples)),
     logged w (flat_map (any_failure filter_list action_list) examples)).
Proof.
  revert valid_iql w; induction examples as [|ex examples IH];
    intros valid_iql w.
  - simpl; unfold ret; rewrite logged_nil, Z.add_0_r; reflexivity.
  - simpl for_each. unfold bind at 1. rewrite valid_step, IH.
    rewrite logged_logged. simpl filter. simpl flat_map.
    destruct (both_pass filter_list action_list ex);
      rewrite ?count_cons; unfold count at 1; simpl List.length;
      do 2 f_equal; lia.
Qed.

Lemma valid_iql_run (dataset : ref)
    (filter_list action_list : list ExposedFunction) (w : World) :
  calculate_valid_iql dataset filter_list action_list w
  = py_truediv
      (count (filter (both_pass filter_list action_list) (heap w dataset)))
      (count (heap w dataset))
      (logged w
         (flat_map (any_failure filter_list action_list) (heap w dataset))).
Proof.
  unfold calculate_valid_iql.
  unfold bind at 1, iter. unfold bind at 1.
  rewrite valid_loop. unfold bind, len. simpl. reflexivity.
Qed.

(** One turn of the syntax-error loop. *)
Lemma syntax_step (filter_list action_list : list ExposedFunction)
    (syntax_errors : Z) (example : IQLResult) (w : World) :
  try_
    (bind (call (IQLQuery_parse (iql_filters example) filter_list)) (fun _ =>
     bind (call (IQLActions_parse (iql_actions example) action_list)) (fun _ =>
     ret syntax_errors)))
    [(except ["IQLError"; "IQLUnsupportedSyntaxError"; "SyntaxError"],
      fun _ => ret (syntax_errors + 1));
     (except ["Exception"],
      fun exc => bind (logger_warning exc) (fun _ => ret syntax_errors))] w
  = (Ok (syntax_errors
         + count (filter (syntax_failure filter_list action_list) [example])),
     logged w (semantic_failure filter_list action_list example)).
Proof.
  unfold try_, bind, call, ret, syntax_failure, semantic_failure,
    first_failure.
  cbn [filter].
  assert (Hraise : forall e : exn,
             dispatch
               [(except ["IQLError"; "IQLUnsupportedSyntaxError";
                         "SyntaxError"],
                 fun _ (w0 : World) => (Ok (syntax_errors + 1), w0));
                (except ["Exception"],
                 fun exc (w0 : World) =>
                   match logger_warning exc w0 with
                   | (Ok _, w') => (Ok syntax_errors, w')
                   | (Raise e0, w') => (Raise e0, w')
                   end)] e w
             = (Ok (syntax_errors
                    + count (if syntax_kind e then [example] else [])),
                logged w (if syntax_kind e then [] else [e]))).
  { intros e; cbn [dispatch]; fold (syntax_kind e).
    destruct (syntax_kind e); simpl.
    - now rewrite logged_nil.
    - now rewrite Z.add_0_r. }
  destruct (IQLQuery_parse (iql_filters example) filter_list) as [q|e];
    [destruct (IQLActions_parse (iql_actions example) action_list) as [a|e]|].
  - simpl; now rewrite logged_nil, Z.add_0_r.
  - apply Hraise.
  - apply Hraise.
Qed.

Lemma syntax_loop (filter_list action_list : list ExposedFunction)
    (examples : list IQLResult) (syntax_errors : Z) (w : World) :
  for_each examples syntax_errors
    (fun syntax_errors example =>
       try_
         (bind (call (IQLQuery_parse (iql_filters example) filter_list))
            (fun _ =>
          bind (call (IQLActions_parse (iql_actions example) action_list))
            (fun _ => ret syntax_errors)))
         [(except ["IQLError"; "IQLUnsupportedSyntaxError"; "SyntaxError"],
           fun _ => ret (syntax_errors + 1));
          (except ["Exception"],
           fun exc =>
             bind (logger_warning exc) (fun _ => ret syntax_errors))]) w
  = (Ok (syntax_errors
         + count (filter (syntax_failure filter_list action_list) examples)),
     logged w (flat_map (semantic_failure filter_list action_list) examples)).
Proof.
  revert syntax_errors w; induction examples as [|ex examples IH];
    intros syntax_errors w.
  - simpl; unfold ret; rewrite logged_nil, Z.add_0_r; reflexivity.
  - simpl for_each. unfold bind at 1. rewrite syntax_step, IH.
    rewrite logged_logged. simpl filter. simpl flat_map.
    destruct (syntax_failure filter_list action_list ex);
      rewrite ?count_cons; unfold count at 1; simpl List.length;
      do 2 f_equal; lia.
Qed.

Lemma syntax_errors_run (dataset : ref)
    (filter_list action_list : list ExposedFunction) (w : World) :
  calculate_syntax_errors dataset filter_list action_list w
  = py_truediv
      (count (filter (syntax_failure filter_list action_list)
                (heap w dataset)))
      (count (heap w dataset))
      (logged w
         (flat_map (semantic_failure filter_list action_list)
            (heap w dataset))).
Proof.
  unfold calculate_syntax_errors.
  unfold bind at 1, iter. unfold bind at 1.
  rewrite syntax_loop. unfold bind, len. simpl. reflexivity.
Qed.

End WithFrontEnd.
End MetricsFacts.

(** *** The heap is only read *)

Module Frame.

Lemma ret_preserves {A} (a : A) : preserves_heap (ret a).
Proof. intros w; reflexivity. Qed.

Lemma raise_preserves {A} (e : exn) : preserves_heap (@raise A e).
Proof. intros w; reflexivity. Qed.

Lemma call_preserves {A} (r : result A) : preserves_heap (call r).
Proof. intros w; reflexivity. Qed.

Lemma logger_warning_preserves (e : exn) : preserves_heap (logger_warning e).
Proof. intros w; reflexivity. Qed.

Lemma iter_preserves (l : ref) : preserves_heap (iter l).
Proof. intros w; reflexivity. Qed.

Lemma len_preserves (l : ref) : preserves_heap (len l).
Proof. intros w; reflexivity. Qed.

Lemma py_truediv_preserves (a b : Z) : preserves_heap (py_truediv a b).
Proof. intros w; unfold py_truediv; destruct (b =? 0); reflexivity. Qed.

Lemma bind_preserves {A B} (m : M A) (k : A -> M B) :
  preserves_heap m -> (forall a, preserves_heap (k a)) ->
  preserves_heap (bind m k).
Proof.
  intros Hm Hk w; unfold bind.
  specialize (Hm w); destruct (m w) as [[a|e] w']; simpl in *.
  - now rewrite Hk.
  - assumption.
Qed.

Lemma dispatch_preserves {A}
    (clauses : list ((exn -> bool) * (exn -> M A))) (e : exn) :
  Forall (fun clause => forall e', preserves_heap (snd clause e')) clauses ->
  preserves_heap (dispatch clauses e).
Proof.
  induction 1 as [|[matches handler] rest Hh _ IH]; simpl.
  - apply raise_preserves.
  - destruct (matches e); [apply Hh | apply IH].
Qed.

Lemma try_preserves {A} (body : M A)
    (clauses : list ((exn -> bool) * (exn -> M A))) :
  preserves_heap body ->
  Forall (fun clause => forall e', preserves_heap (snd clause e')) clauses ->
  preserves_heap (try_ body clauses).
Proof.
  intros Hb Hc w; unfold try_.
  specialize (Hb w); destruct (body w) as [[a|e] w']; simpl in *.
  - assumption.
  - now rewrite (dispatch_preserves clauses e Hc w').
Qed.

Lemma for_each_preserves {A S} (xs : list A) (body : S -> A -> M S) :
  (forall s x, preserves_heap (body s x)) ->
  forall s, preserves_heap (for_each xs s body).
Proof.
  intros Hbody; induction xs as [|x xs IH]; intros s; simpl.
  - apply ret_preserves.
  - apply bind_preserves; [apply Hbody | assumption].
Qed.

Lemma if_preserves {A} (b : bool) (m1 m2 : M A) :
  preserves_heap m1 -> preserves_heap m2 ->
  preserves_heap (if b then m1 else m2).
Proof. destruct b; auto. Qed.

Create HintDb frame.
#[export] Hint Resolve ret_preserves raise_preserves call_preserves
  logger_warning_preserves iter_preserves len_preserves py_truediv_preserves
  : frame.

(** Goes through binds, loops, [try] and conditionals down to the
    primitives. *)
Ltac frame :=
  repeat first
    [ progress auto with frame
    | apply bind_preserves; [|intros]
    | apply for_each_preserves; intros
    | apply try_preserves
    | apply if_preserves
    | apply Forall_cons; [intros; cbn [snd]|]
    | apply Forall_nil
    | match goal with
      | |- context [match ?p with pair _ _ => _ end] =>
          is_var p; destruct p; cbv beta
      end ].

Section WithFrontEnd.
Context {FE : FrontEnd}.
Import Metrics.

Lemma single_example_preserves (iql : string) (allowed : list string) :
  preserves_heap (_count_hallucinated_methods_for_single_example iql allowed).
Proof. unfold _count_hallucinated_methods_for_single_example; frame. Qed.

Lemma hallucinated_filters_preserves (dataset : ref)
    (filter_list : list ExposedFunction) :
  preserves_heap
    (calculate_hallucinated_filters_for_dataset dataset filter_list).
Proof.
  unfold calculate_hallucinated_filters_for_dataset; frame;
    apply single_example_preserves.
Qed.

Lemma hallucinated_actions_preserves (dataset : ref)
    (action_list : list ExposedFunction) :
  preserves_heap
    (calculate_hallucinated_actions_for_dataset dataset action_list).
Proof.
  unfold calculate_hallucinated_actions_for_dataset; frame;
    apply single_example_preserves.
Qed.

Lemma valid_iql_preserves (dataset : ref)
    (filter_list action_list : list ExposedFunction) :
  preserves_heap (calculate_valid_iql dataset filter_list action_list).
Proof. unfold calculate_valid_iql; frame. Qed.

Lemma syntax_errors_preserves (dataset : ref)
    (filter_list action_list : list ExposedFunction) :
  preserves_heap (calculate_syntax_errors dataset filter_list action_list).
Proof. unfold calculate_syntax_errors; frame. Qed.

Lemma dataset_metrics_preserves (dataset : ref)
    (filter_list action_list : list ExposedFunction) :
  preserves_heap (calculate_dataset_metrics dataset filter_list action_list).
Proof.
  unfold calculate_dataset_metrics.
  apply bind_preserves; [apply valid_iql_preserves | intros].
  apply bind_preserves; [apply hallucinated_filters_preserves | intros].
  apply bind_preserves; [apply hallucinated_actions_preserves | intros].
  apply bind_preserves; [apply syntax_errors_preserves | intros].
  apply ret_preserves.
Qed.

End WithFrontEnd.
End Frame.

(* ------------------------------------------------------------------ *)
(** ** The metrics: what they compute *)

Module MetricsTheorems.
Import Metrics MetricsFacts Examples.

(** C1, at the empty dataset.  With no example in the dataset,
    [calculate_valid_iql] and [calculate_syntax_errors] divide by the
    length 0 and raise [ZeroDivisionError], and so does
    [calculate_dataset_metrics], which calls them; the two hallucination
    rates, which test their denominator first, return 0. *)
Theorem empty_dataset_division_fault {FE : FrontEnd} (dataset : ref)
    (filter_list action_list : list ExposedFunction) (w : World) :
  calculate_valid_iql dataset filter_list action_list (store dataset [] w)
    = (Raise ZeroDivisionError, store dataset [] w)
  /\ calculate_syntax_errors dataset filter_list action_list
       (store dataset [] w)
    = (Raise ZeroDivisionError, store dataset [] w)
  /\ calculate_dataset_metrics dataset filter_list action_list
       (store dataset [] w)
    = (Raise ZeroDivisionError, store dataset [] w)
  /\ calculate_hallucinated_filters_for_dataset dataset filter_list
       (store dataset [] w)
    = (Ok 0%Q, store dataset [] w)
  /\ calculate_hallucinated_actions_for_dataset dataset action_list
       (store dataset [] w)
    = (Ok 0%Q, store dataset [] w).
Proof.
  assert (Hv : calculate_valid_iql dataset filter_list action_list
                 (store dataset [] w)
               = (Raise ZeroDivisionError, store dataset [] w)).
  { rewrite valid_iql_run, heap_store; simpl; now rewrite logged_nil. }
  repeat split.
  - exact Hv.
  - rewrite syntax_errors_run, heap_store; simpl; now rewrite logged_nil.
  - unfold calculate_dataset_metrics, bind; now rewrite Hv.
  - now rewrite hallucinated_filters_run, heap_store.
  - now rewrite hallucinated_actions_run, heap_store.
Qed.

(** C3.  The hallucinated-filter rate is the number of extracted call
    names outside the allowed filter names, summed over the filters texts
    of the dataset, divided by the number of extracted calls summed
    likewise (0 when no call was extracted); a text whose extraction fails
    has no extracted name.  The hallucinated-action rate is the same over
    the actions texts and the allowed action names.  Neither depends on
    the full parse of the text. *)
Theorem hallucinated_rates_are_count_ratios {FE : FrontEnd} (dataset : ref)
    (filter_list action_list : list ExposedFunction) (w : World) :
  calculate_hallucinated_filters_for_dataset dataset filter_list w
    = (Ok (ratio (hallucinated_calls (map name filter_list)
                    (map iql_filters (heap w dataset)))
                 (extracted_calls (map iql_filters (heap w dataset)))), w)
  /\ calculate_hallucinated_actions_for_dataset dataset action_list w
    = (Ok (ratio (hallucinated_calls (map name action_list)
                    (map iql_actions (heap w dataset)))
                 (extracted_calls (map iql_actions (heap w dataset)))), w).
Proof.
  split; [apply hallucinated_filters_run | apply hallucinated_actions_run].
Qed.

(** C4.  On a dataset that is not empty the valid-IQL rate is the number
    of examples whose filters text and actions text both pass full parse
    and validation, divided by the number of examples. *)
Theorem valid_iql_rate_counts_passing_examples {FE : FrontEnd}
    (dataset : ref) (filter_list action_list : list ExposedFunction)
    (w : World) :
  heap w dataset <> [] ->
  fst (calculate_valid_iql dataset filter_list action_list w)
  = Ok (Qred (inject_Z (count (filter (both_pass filter_list action_list)
                                 (heap w dataset)))
              / inject_Z (count (heap w dataset)))).
Proof.
  intros Hne. rewrite valid_iql_run. unfold py_truediv.
  destruct (count (heap w dataset) =? 0) eqn:E; [|reflexivity].
  apply Z.eqb_eq in E. unfold count in E.
  destruct (heap w dataset); [contradiction | simpl in E; lia].
Qed.

Lemma valid_iql_rate_counts_passing_examples_witness :
  heap (store 0%nat [valid_record; hallucinating_record] empty_world) 0%nat
    <> []
  /\ fst (@calculate_valid_iql spec_front_end 0%nat mock_filters mock_actions
            (store 0%nat [valid_record; hallucinating_record] empty_world))
     = Ok (1 # 2).
Proof.
  split.
  - simpl; discriminate.
  - rewrite (@valid_iql_rate_counts_passing_examples spec_front_end).
    + vm_compute; reflexivity.
    + simpl; discriminate.
Defined.

(** C5.  The hallucination rates divide the sum of the per-example
    numerators by the sum of the per-example denominators: the rate of two
    datasets put end to end is the sum of their numerators over the sum of
    their denominators. *)
Theorem hallucination_rate_of_concatenation {FE : FrontEnd} (dataset : ref)
    (filter_list action_list : list ExposedFunction)
    (d1 d2 : list IQLResult) (w : World) :
  calculate_hallucinated_filters_for_dataset dataset filter_list
    (store dataset (d1 ++ d2) w)
    = (Ok (ratio
             (hallucinated_calls (map name filter_list) (map iql_filters d1)
              + hallucinated_calls (map name filter_list)
                  (map iql_filters d2))
             (extracted_calls (map iql_filters d1)
              + extracted_calls (map iql_filters d2))),
       store dataset (d1 ++ d2) w)
  /\ calculate_hallucinated_actions_for_dataset dataset action_list
       (store dataset (d1 ++ d2) w)
    = (Ok (ratio
             (hallucinated_calls (map name action_list) (map iql_actions d1)
              + hallucinated_calls (map name action_list)
                  (map iql_actions d2))
             (extracted_calls (map iql_actions d1)
              + extracted_calls (map iql_actions d2))),
       store dataset (d1 ++ d2) w).
Proof.
  rewrite hallucinated_filters_run, hallucinated_actions_run, heap_store.
  unfold hallucinated_calls, extracted_calls.
  rewrite !map_app, !sum_app. split; reflexivity.
Qed.

(** C6.  The count for one example always returns and leaves the world as
    it was: the counts of the extracted names when the extraction
    succeeds, and (0, 0) when [ast.parse] or the visitor raises. *)
Theorem single_example_count_never_raises {FE : FrontEnd} (iql : string)
    (allowed_methods : list string) (w : World) :
  _count_hallucinated_methods_for_single_example iql allowed_methods w
  = (Ok match rbind (ast_parse iql) get_method_calls with
        | Ok predicted_methods =>
            (count (hallucinated allowed_methods predicted_methods),
             count predicted_methods)
        | Raise _ => (0, 0)
        end, w).
Proof.
  rewrite single_example. unfold extracted_names.
  destruct (rbind (ast_parse iql) get_method_calls); reflexivity.
Qed.

(** C9.  Computing the metrics leaves every list object, the dataset among
    them, as it was; what is returned is the mapping of the four metric
    names, in this order, to the values of the four metric functions (and
    when nothing is returned, the exception is [ZeroDivisionError]). *)
Theorem dataset_metrics_leave_dataset_unchanged {FE : FrontEnd}
    (dataset : ref) (filter_list action_list : list ExposedFunction)
    (w : World) :
  heap (snd (calculate_dataset_metrics dataset filter_list action_list w))
    = heap w
  /\ match fst (calculate_dataset_metrics dataset filter_list action_list w)
     with
     | Ok metrics =>
         exists valid_iql hallucinated_filters hallucinated_actions
                syntax_errors,
           metrics = [("valid_iql", valid_iql);
                      ("hallucinated_filters", hallucinated_filters);
                      ("hallucinated_actions", hallucinated_actions);
                      ("syntax_errors", syntax_errors)]
           /\ fst (calculate_valid_iql dataset filter_list action_list w)
              = Ok valid_iql
           /\ fst (calculate_hallucinated_filters_for_dataset dataset
                     filter_list w) = Ok hallucinated_filters
           /\ fst (calculate_hallucinated_actions_for_dataset dataset
                     action_list w) = Ok hallucinated_actions
           /\ fst (calculate_syntax_errors dataset filter_list action_list w)
              = Ok syntax_errors
     | Raise e => e = ZeroDivisionError
     end.
Proof.
  split; [apply Frame.dataset_metrics_preserves|].
  unfold calculate_dataset_metrics, bind.
  rewrite valid_iql_run, syntax_errors_run.
  unfold py_truediv at 1 3.
  destruct (count (heap w dataset) =? 0) eqn:E; [reflexivity|].
  unfold ret at 1.
  rewrite hallucinated_filters_run, hallucinated_actions_run.
  rewrite syntax_errors_run. cbn [logged heap].
  unfold py_truediv; rewrite E. cbn [ret fst].
  eexists _, _, _, _; repeat split;
    rewrite ?valid_iql_run, ?hallucinated_filters_run,
      ?hallucinated_actions_run, ?syntax_errors_run;
    unfold py_truediv; rewrite ?E; reflexivity.
Qed.

(** C10.  The hallucination count reads a text through [ast.parse] alone.
    When the tolerant pass parses the filters text of an example and the
    visitor lists its calls, while the full IQL parse rejects the text with
    an exception of syntax-error kind, the listed names are counted all the
    same: in a dataset of that one example the example is a syntax error,
    is not valid, and its calls make up the hallucinated-filter rate. *)
Theorem rejected_text_still_counts_calls {FE : FrontEnd} (dataset : ref)
    (example : IQLResult) (filter_list action_list : list ExposedFunction)
    (tree : AST) (names : list string) (e : exn) (w : World) :
  ast_parse (iql_filters example) = Ok tree ->
  get_method_calls tree = Ok names ->
  IQLQuery_parse (iql_filters example) filter_list = Raise e ->
  syntax_kind e = true ->
  _count_hallucinated_methods_for_single_example (iql_filters example)
      (map name filter_list) (store dataset [example] w)
    = (Ok (count (hallucinated (map name filter_list) names), count names),
       store dataset [example] w)
  /\ calculate_hallucinated_filters_for_dataset dataset filter_list
       (store dataset [example] w)
    = (Ok (ratio (count (hallucinated (map name filter_list) names))
                 (count names)),
       store dataset [example] w)
  /\ calculate_syntax_errors dataset filter_list action_list
       (store dataset [example] w)
    = (Ok 1%Q, store dataset [example] w)
  /\ calculate_valid_iql dataset filter_list action_list
       (store dataset [example] w)
    = (Ok 0%Q, logged (store dataset [example] w) [e]).
Proof.
  intros Hparse Hcalls Hreject Hkind.
  assert (Hnames : extracted_names (iql_filters example) = names).
  { unfold extracted_names; rewrite Hparse; simpl; now rewrite Hcalls. }
  repeat split.
  - now rewrite single_example, Hnames.
  - rewrite hallucinated_filters_run, heap_store.
    unfold hallucinated_calls, extracted_calls; simpl.
    now rewrite Hnames, !Z.add_0_r.
  - rewrite syntax_errors_run, heap_store.
    unfold syntax_failure, semantic_failure, first_failure; simpl.
    rewrite Hreject, Hkind; simpl. now rewrite logged_nil.
  - rewrite valid_iql_run, heap_store.
    unfold both_pass, any_failure, first_failure; simpl.
    rewrite Hreject; reflexivity.
Qed.

Lemma rejected_text_still_counts_calls_witness :
  @ast_parse spec_front_end (iql_filters disjunctive_record)
    = Ok (Module_
            [Expr (BoolOp Or
                     [Call (Name "method_foo") [Constant (CInt 1)];
                      Call (Name "bad_method") [Constant (CInt 2)]])])
  /\ @IQLQuery_parse spec_front_end (iql_filters disjunctive_record)
       mock_filters
     = Raise (Iql.IQLUnsupportedSyntaxError "call")
  /\ @_count_hallucinated_methods_for_single_example spec_front_end
       (iql_filters disjunctive_record) (map name mock_filters)
       (store 0%nat [disjunctive_record] empty_world)
     = (Ok (1, 2), store 0%nat [disjunctive_record] empty_world)
  /\ @calculate_syntax_errors spec_front_end 0%nat mock_filters mock_actions
       (store 0%nat [disjunctive_record] empty_world)
     = (Ok 1%Q, store 0%nat [disjunctive_record] empty_world).
Proof.
  assert (Hparse : @ast_parse spec_front_end (iql_filters disjunctive_record)
            = Ok (Module_
                    [Expr (BoolOp Or
                       [Call (Name "method_foo") [Constant (CInt 1)];
                        Call (Name "bad_method") [Constant (CInt 2)]])]))
    by (vm_compute; reflexivity).
  assert (Hreject : @IQLQuery_parse spec_front_end
                      (iql_filters disjunctive_record) mock_filters
                    = Raise (Iql.IQLUnsupportedSyntaxError "call"))
    by (vm_compute; reflexivity).
  destruct (@rejected_text_still_counts_calls spec_front_end 0%nat
              disjunctive_record mock_filters mock_actions _
              ["method_foo"; "bad_method"] _ empty_world
              Hparse eq_refl Hreject eq_refl) as (Hcount & _ & Hsyntax & _).
  repeat split; assumption.
Defined.

End MetricsTheorems.

(* ------------------------------------------------------------------ *)
(** ** The front end after the specification *)

Module FrontEndFacts.
Import Metrics MetricsFacts Examples Views.

Lemma name_char_plain (c : ascii) : is_name_char c = true -> plain c = true.
Proof.
  destruct c as [[] [] [] [] [] [] [] []]; vm_compute; congruence.
Qed.

Lemma digit_plain (c : ascii) : is_digit c = true -> plain c = true.
Proof.
  destruct c as [[] [] [] [] [] [] [] []]; vm_compute; congruence.
Qed.

Lemma dot_plain (c : ascii) : is_dot c = true -> plain c = true.
Proof.
  destruct c as [[] [] [] [] [] [] [] []]; vm_compute; congruence.
Qed.

Lemma newline_plain (c : ascii) : is_newline c = true -> plain c = true.
Proof.
  destruct c as [[] [] [] [] [] [] [] []]; vm_compute; congruence.
Qed.

Lemma scan_plain (c : ascii) (cs : list ascii) (depth : nat) :
  plain c = true ->
  paren_scan (c :: cs) SCode depth = paren_scan cs SCode depth.
Proof.
  unfold plain; intros H; apply negb_true_iff in H.
  apply orb_false_iff in H as [H Hhash].
  apply orb_false_iff in H as [H Hquote].
  apply orb_false_iff in H as [Hopen Hclose].
  simpl; now rewrite Hopen, Hclose, Hquote, Hhash.
Qed.

Lemma emit_raises (t : token) (r : result (list token)) :
  raises_syntax_error r -> raises_syntax_error (emit t r).
Proof. intros [msg ->]; now exists msg. Qed.

Lemma rbind_raises {A B} (r : result A) (k : A -> result B) :
  raises_syntax_error r -> raises_syntax_error (rbind r k).
Proof. intros [msg ->]; now exists msg. Qed.

Lemma int_token_raises (acc : list ascii) :
  is_ok (int_token acc) = false -> raises_syntax_error (int_token acc).
Proof.
  unfold int_token; destruct (rev acc) as [|c [|c' ds]]; simpl;
    try discriminate.
  destruct (_ && _)%bool; [intros _; eexists; reflexivity | discriminate].
Qed.

Lemma flush_raises (st : lstate) (r : result (list token)) :
  raises_syntax_error r -> raises_syntax_error (flush st r).
Proof.
  intros Hr; destruct st; simpl; auto using emit_raises.
  - destruct (int_token acc) eqn:E; simpl.
    + now apply emit_raises.
    + destruct (int_token_raises acc) as [msg Hmsg]; [now rewrite E|].
      rewrite E in Hmsg; injection Hmsg as ->; now exists msg.
  - eexists; reflexivity.
Qed.

(** One character between tokens: if the scan of the text from here finds
    the parentheses unbalanced, the lexer raises. *)
Lemma lex_code_unbalanced (c : ascii) (cs : list ascii) (depth : nat) :
  (forall st d, paren_scan cs (mode_of st) d = false ->
                raises_syntax_error (lex cs st d)) ->
  paren_scan (c :: cs) SCode depth = false ->
  raises_syntax_error (lex_code c depth (fun st d => lex cs st d)).
Proof.
  intros IH; unfold lex_code; simpl paren_scan.
  destruct (is_open c).
  { intros H; apply emit_raises, (IH LStart), H. }
  destruct (is_close c).
  { destruct depth as [|d]; intros H.
    - eexists; reflexivity.
    - apply emit_raises, (IH LStart), H. }
  destruct (is_quote c).
  { intros H; apply (IH (LStr c [])), H. }
  destruct (is_hash c).
  { intros H; apply (IH LComment), H. }
  intros H.
  destruct (is_newline c).
  { destruct depth; [apply emit_raises|]; apply (IH LStart), H. }
  destruct (is_space c); [apply (IH LStart), H|].
  destruct (is_comma c); [apply emit_raises, (IH LStart), H|].
  destruct (is_name_start c); [apply (IH (LName [c])), H|].
  destruct (is_digit c); [apply (IH (LInt [c])), H|].
  eexists; reflexivity.
Qed.

(** The lexer raises on every text whose parentheses the scan finds
    unbalanced, from any state it can be in. *)
Lemma lex_unbalanced (cs : list ascii) :
  forall st depth,
    paren_scan cs (mode_of st) depth = false ->
    raises_syntax_error (lex cs st depth).
Proof.
  induction cs as [|c cs IH]; intros st depth H.
  - simpl in H. destruct depth as [|d]; [discriminate|].
    simpl; destruct st; eexists; reflexivity.
  - pose proof (lex_code_unbalanced c cs depth IH) as Hcode.
    destruct st; cbn [lex mode_of] in *.
    + now apply Hcode.
    + destruct (is_name_char c) eqn:E.
      * apply (IH (LName (c :: acc))).
        now rewrite scan_plain in H by now apply name_char_plain.
      * now apply (flush_raises (LName acc)), Hcode.
    + destruct (is_digit c) eqn:E.
      * apply (IH (LInt (c :: acc))).
        now rewrite scan_plain in H by now apply digit_plain.
      * destruct (is_dot c) eqn:E'.
        -- apply (IH (LFrac acc [])).
           now rewrite scan_plain in H by now apply dot_plain.
        -- destruct (is_name_start c); [eexists; reflexivity|].
           now apply (flush_raises (LInt acc)), Hcode.
    + destruct (is_digit c) eqn:E.
      * apply (IH (LFrac int_acc (c :: frac_acc))).
        now rewrite scan_plain in H by now apply digit_plain.
      * destruct (is_dot c || is_name_start c)%bool; [eexists; reflexivity|].
        now apply (flush_raises (LFrac int_acc frac_acc)), Hcode.
    + simpl in H. destruct (Ascii.eqb c q).
      * apply emit_raises, (IH LStart), H.
      * destruct (is_newline c || Ascii.eqb c backslash)%bool;
          [eexists; reflexivity|].
        apply (IH (LStr q (c :: acc))), H.
    + simpl in H. destruct (is_newline c) eqn:E.
      * apply Hcode. now rewrite scan_plain by now apply newline_plain.
      * apply (IH LComment), H.
Qed.

Lemma tokenize_unbalanced (source : string) :
  balanced_parens source = false -> raises_syntax_error (tokenize source).
Proof. apply (lex_unbalanced _ LStart 0%nat). Qed.

(** [ast.parse] raises [SyntaxError] on a text with unbalanced
    parentheses. *)
Lemma parse_unbalanced (source : string) :
  balanced_parens source = false -> raises_syntax_error (PyAst.parse source).
Proof.
  intros H; unfold PyAst.parse; now apply rbind_raises, tokenize_unbalanced.
Qed.

Lemma syntax_error_is_syntax_kind (msg : string) :
  syntax_kind (SyntaxError msg) = true.
Proof. reflexivity. Qed.

End FrontEndFacts.

(** *** The parser never runs out of fuel *)

Module ParserFacts.

Lemma atom_of_name_syntax (s : string) :
  syntax_or (fun _ => True) (atom_of_name s).
Proof.
  unfold atom_of_name.
  repeat match goal with |- context [if ?b then _ else _] => destruct b end;
    simpl; try exact I; eexists; reflexivity.
Qed.

Ltac fact_for IH F t :=
  let H := fresh "Hcall" in
  lazymatch F with
  | parse_primary => pose proof (proj1 (IH t)) as H
  | parse_inversion => pose proof (proj1 (proj2 (IH t))) as H
  | parse_conjunction => pose proof (proj1 (proj2 (proj2 (IH t)))) as H
  | parse_disjunction =>
      pose proof (proj1 (proj2 (proj2 (proj2 (IH t))))) as H
  | parse_args =>
      pose proof (proj1 (proj2 (proj2 (proj2 (proj2 (IH t)))))) as H
  | parse_or_tail =>
      pose proof (proj1 (proj2 (proj2 (proj2 (proj2 (proj2 (IH t))))))) as H
  | parse_and_tail =>
      pose proof
        (proj1 (proj2 (proj2 (proj2 (proj2 (proj2 (proj2 (IH t)))))))) as H
  end;
  specialize (H ltac:(simpl in *; lia)).

Ltac call_step IH :=
  match goal with
  | |- context [parse_trailers ?f ?e ?t] =>
      let H := fresh "Hcall" in
      pose proof
        (proj2 (proj2 (proj2 (proj2 (proj2 (proj2 (proj2 (IH t)))))))) as H;
      specialize (H ltac:(simpl in *; lia) e);
      destruct (parse_trailers f e t) as [[? ?]|?];
      cbn [consumes keeps syntax_or snd] in H
  | |- context [?F ?f ?t] =>
      fact_for IH F t;
      destruct (F f t) as [[? ?]|?];
      match goal with
      | H : consumes _ _ |- _ => cbn [consumes syntax_or snd] in H
      | H : keeps _ _ |- _ => cbn [keeps syntax_or snd] in H
      end
  end.

Ltac descent IH :=
  repeat first
    [ assumption
    | match goal with
      | |- (_ < _)%nat => simpl in *; lia
      | |- (_ <= _)%nat => simpl in *; lia
      | |- exists msg, SyntaxError _ = SyntaxError msg =>
          eexists; reflexivity
      end
    | progress cbn [rbind consumes keeps syntax_or snd invalid_syntax]
    | call_step IH
    | match goal with
      | |- context [match ?ts with [] => _ | _ :: _ => _ end] =>
          is_var ts; destruct ts as [|[] ?]
      end
    | match goal with
      | |- context [if ?b then _ else _] => destruct b
      end ].

Lemma descent_fuel (fuel : nat) : forall ts,
  ((6 * List.length ts + 1 <= fuel)%nat ->
   consumes ts (parse_primary fuel ts)) /\
  ((6 * List.length ts + 2 <= fuel)%nat ->
   consumes ts (parse_inversion fuel ts)) /\
  ((6 * List.length ts + 3 <= fuel)%nat ->
   consumes ts (parse_conjunction fuel ts)) /\
  ((6 * List.length ts + 4 <= fuel)%nat ->
   consumes ts (parse_disjunction fuel ts)) /\
  ((6 * List.length ts + 5 <= fuel)%nat ->
   consumes ts (parse_args fuel ts)) /\
  ((6 * List.length ts + 1 <= fuel)%nat ->
   keeps ts (parse_or_tail fuel ts)) /\
  ((6 * List.length ts + 1 <= fuel)%nat ->
   keeps ts (parse_and_tail fuel ts)) /\
  ((6 * List.length ts + 1 <= fuel)%nat ->
   forall e, keeps ts (parse_trailers fuel e ts)).
Proof.
  induction fuel as [|f IH]; intros ts.
  { repeat split; intros; lia. }
  repeat split; intros Hfuel.
  - cbn [parse_primary].
    destruct ts as [|[] ts1]; try (descent IH; fail).
    pose proof (atom_of_name_syntax s) as Hatom.
    destruct (atom_of_name s); cbn [syntax_or] in Hatom; descent IH.
  - cbn [parse_inversion]. descent IH.
  - cbn [parse_conjunction]. descent IH.
  - cbn [parse_disjunction]. descent IH.
  - cbn [parse_args]. descent IH.
  - cbn [parse_or_tail]. descent IH.
  - cbn [parse_and_tail]. descent IH.
  - intros e. cbn [parse_trailers]. descent IH.
Qed.

Lemma statements_fuel (fuel : nat) : forall ts,
  (6 * List.length ts + 5 <= fuel)%nat ->
  syntax_or (fun _ => True) (parse_statements fuel ts).
Proof.
  induction fuel as [|f IH]; intros ts Hfuel; [lia|].
  cbn [parse_statements].
  destruct ts as [|t ts1]; [exact I|].
  assert (Hexpr :
    syntax_or (fun _ => True)
      (rbind (parse_disjunction f (t :: ts1))
         (fun '(e, ts2) =>
            match ts2 with
            | [] => Ok [Expr e]
            | NEWLINE :: ts3 =>
                rbind (parse_statements f ts3)
                  (fun rest => Ok (Expr e :: rest))
            | _ => invalid_syntax
            end))).
  { pose proof (proj1 (proj2 (proj2 (proj2 (descent_fuel f (t :: ts1)))))
                  ltac:(simpl in *; lia)) as Hd.
    destruct (parse_disjunction f (t :: ts1)) as [[e ts2]|err];
      cbn [consumes syntax_or snd rbind] in *; [|assumption].
    destruct ts2 as [|[] ts3]; cbn [syntax_or invalid_syntax];
      try exact I; try (eexists; reflexivity).
    specialize (IH ts3 ltac:(simpl in *; lia)).
    destruct (parse_statements f ts3); cbn [rbind syntax_or] in *;
      [exact I | assumption]. }
  destruct t; try exact Hexpr.
  apply IH; simpl in *; lia.
Qed.

Lemma emit_syntax (t : token) (r : result (list token)) :
  syntax_or (fun _ => True) r -> syntax_or (fun _ => True) (emit t r).
Proof. destruct r; simpl; auto. Qed.

Lemma flush_syntax (st : lstate) (r : result (list token)) :
  syntax_or (fun _ => True) r -> syntax_or (fun _ => True) (flush st r).
Proof.
  intros Hr; destruct st; cbn [flush]; auto using emit_syntax.
  - unfold int_token.
    destruct (rev acc) as [|c [|c' ds]]; cbn [rbind];
      auto using emit_syntax.
    destruct (_ && _)%bool; cbn [rbind syntax_or]; auto using emit_syntax.
    eexists; reflexivity.
  - eexists; reflexivity.
Qed.

Lemma lex_syntax (cs : list ascii) :
  forall st depth, syntax_or (fun _ => True) (lex cs st depth).
Proof.
  induction cs as [|c cs IH]; intros st depth.
  - cbn [lex]. destruct depth.
    + apply flush_syntax; exact I.
    + destruct st; eexists; reflexivity.
  - assert (Hcode : syntax_or (fun _ => True)
                      (lex_code c depth (fun st' depth' => lex cs st' depth'))).
    { unfold lex_code.
      repeat match goal with
        | |- context [if ?b then _ else _] => destruct b
        | |- context [match ?d with O => _ | S _ => _ end] => destruct d
        end;
        auto using emit_syntax; eexists; reflexivity. }
    destruct st; cbn [lex];
      repeat match goal with
        | |- context [if ?b then _ else _] => destruct b
        end;
      auto using emit_syntax, flush_syntax; eexists; reflexivity.
Qed.

(** [ast.parse] returns a tree or raises [SyntaxError]: the fuel never
    runs out. *)
Lemma parse_returns_or_syntax_error (source : string) :
  syntax_or (fun _ => True) (PyAst.parse source).
Proof.
  unfold PyAst.parse, tokenize.
  pose proof (lex_syntax (list_ascii_of_string source) LStart 0%nat) as Hlex.
  destruct (lex _ _ _) as [ts|e]; cbn [rbind syntax_or] in *; [|assumption].
  pose proof (statements_fuel (fuel_for ts) ts) as Hst.
  unfold fuel_for in Hst at 1. specialize (Hst ltac:(lia)).
  destruct (parse_statements (fuel_for ts) ts); cbn [rbind syntax_or] in *;
    [exact I | assumption].
Qed.

End ParserFacts.

Module FrontEndTheorems.
Import Metrics MetricsFacts Examples Views FrontEndFacts.

(** The full parse of a filters text with unbalanced parentheses raises
    [SyntaxError], whatever the registry. *)
Lemma query_parse_unbalanced (source : string)
    (allowed_functions : list ExposedFunction) :
  balanced_parens source = false ->
  raises_syntax_error
    (Iql.IQLQuery_parse no_similarity source allowed_functions).
Proof.
  intros H; unfold Iql.IQLQuery_parse, Iql.parse_filters.
  now apply rbind_raises, rbind_raises, parse_unbalanced.
Qed.

(** C7.  A record whose filters text has an unbalanced parenthesis
    (outside string literals and comments): its full parse raises
    [SyntaxError]; in the dataset of that one record the syntax-error rate
    is 1 with nothing logged, the best-effort extraction yields the counts
    (0, 0), and the hallucinated-filter rate is 0. *)
Theorem unbalanced_parenthesis_is_only_a_syntax_error (dataset : ref)
    (example : IQLResult) (filter_list action_list : list ExposedFunction)
    (w : World) :
  balanced_parens (iql_filters example) = false ->
  raises_syntax_error
    (@IQLQuery_parse spec_front_end (iql_filters example) filter_list)
  /\ @calculate_syntax_errors spec_front_end dataset filter_list action_list
       (store dataset [example] w)
     = (Ok 1%Q, store dataset [example] w)
  /\ @_count_hallucinated_methods_for_single_example spec_front_end
       (iql_filters example) (map name filter_list)
       (store dataset [example] w)
     = (Ok (0, 0), store dataset [example] w)
  /\ @calculate_hallucinated_filters_for_dataset spec_front_end dataset
       filter_list (store dataset [example] w)
     = (Ok 0%Q, store dataset [example] w).
Proof.
  intros H.
  pose proof (query_parse_unbalanced _ filter_list H) as [msg Hq].
  pose proof (parse_unbalanced _ H) as [msg' Hp].
  assert (Hnames : @extracted_names spec_front_end (iql_filters example)
                   = []).
  { unfold extracted_names; simpl ast_parse; now rewrite Hp. }
  repeat split.
  - now exists msg.
  - rewrite syntax_errors_run, heap_store.
    unfold syntax_failure, semantic_failure, first_failure.
    cbn [filter flat_map]. simpl IQLQuery_parse. rewrite Hq.
    rewrite syntax_error_is_syntax_kind. simpl. now rewrite logged_nil.
  - now rewrite single_example, Hnames.
  - rewrite hallucinated_filters_run, heap_store.
    unfold hallucinated_calls, extracted_calls; simpl map.
    now rewrite Hnames.
Qed.

Lemma unbalanced_parenthesis_is_only_a_syntax_error_witness :
  balanced_parens (iql_filters unbalanced_record) = false
  /\ @calculate_syntax_errors spec_front_end 0%nat mock_filters mock_actions
       (store 0%nat [unbalanced_record] empty_world)
     = (Ok 1%Q, store 0%nat [unbalanced_record] empty_world)
  /\ @calculate_hallucinated_filters_for_dataset spec_front_end 0%nat
       mock_filters (store 0%nat [unbalanced_record] empty_world)
     = (Ok 0%Q, store 0%nat [unbalanced_record] empty_world).
Proof.
  assert (H : balanced_parens (iql_filters unbalanced_record) = false)
    by (vm_compute; reflexivity).
  destruct (unbalanced_parenthesis_is_only_a_syntax_error 0%nat
              unbalanced_record mock_filters mock_actions empty_world H)
    as (_ & Hsyntax & _ & Hrate).
  repeat split; assumption.
Defined.


End FrontEndTheorems.

(** *** Grammar violations and semantic violations *)

Module StageFacts.
Import Metrics MetricsFacts Examples ParserFacts.

Lemma mapM_raises_only {A B} (P : exn -> Prop) (f : A -> result B)
    (xs : list A) :
  (forall x, raises_only P (f x)) -> raises_only P (mapM f xs).
Proof.
  intros Hf; induction xs as [|x xs IH]; simpl; [exact I|].
  specialize (Hf x). destruct (f x); simpl in *; [|assumption].
  destruct (mapM f xs); simpl in *; [exact I | assumption].
Qed.

Lemma parse_literal_grammar (e : expr) :
  raises_only grammar_violation (Iql.parse_literal e).
Proof.
  destruct e as [| [] | | |]; simpl; try exact I;
    eexists; right; reflexivity.
Qed.

Lemma parse_call_grammar (e : expr) :
  raises_only grammar_violation (Iql.parse_call e).
Proof.
  destruct e as [| |func args| |]; simpl;
    try (eexists; right; reflexivity).
  destruct func; simpl; try (eexists; right; reflexivity).
  pose proof (mapM_raises_only grammar_violation Iql.parse_literal args
                parse_literal_grammar) as H.
  destruct (mapM Iql.parse_literal args); simpl in *; [exact I | assumption].
Qed.

Lemma ast_parse_grammar (source : string) :
  raises_only grammar_violation (PyAst.parse source).
Proof.
  pose proof (parse_returns_or_syntax_error source) as H.
  destruct (PyAst.parse source); simpl in *; [exact I|].
  destruct H as [msg ->]. exists msg; now left.
Qed.

Lemma rbind_raises_only {A B} (P : exn -> Prop) (r : result A)
    (k : A -> result B) :
  raises_only P r -> (forall a, raises_only P (k a)) ->
  raises_only P (rbind r k).
Proof. destruct r; simpl; auto. Qed.

Lemma parse_filters_grammar (source : string) :
  raises_only grammar_violation (Iql.parse_filters source).
Proof.
  unfold Iql.parse_filters.
  apply rbind_raises_only; [apply ast_parse_grammar|]. intros tree.
  assert (Hstmt : raises_only grammar_violation
                    (@Raise (list Iql.ParsedCall)
                       (Iql.IQLUnsupportedSyntaxError "statement")))
    by (eexists; right; reflexivity).
  assert (Hone : forall e,
             raises_only grammar_violation
               (rbind (Iql.parse_call e) (fun call => Ok [call]))).
  { intros e; apply rbind_raises_only;
      [apply parse_call_grammar | intros; exact I]. }
  destruct (body tree) as [|[e] [|]]; [exact I| |];
    destruct e as [| | | [] |]; auto.
  apply mapM_raises_only, parse_call_grammar.
Qed.

Lemma parse_actions_grammar (source : string) :
  raises_only grammar_violation (Iql.parse_actions source).
Proof.
  unfold Iql.parse_actions.
  apply rbind_raises_only; [apply ast_parse_grammar|]. intros tree.
  apply mapM_raises_only. intros [e]. apply parse_call_grammar.
Qed.

Lemma coerce_semantic (resolve : string -> string -> option string)
    (op : string) (p : MethodParam) (c : constant) :
  raises_only
    (fun e => e = Iql.TypeMismatch op \/ exists raw, e = Iql.UnresolvedSimilarityValue raw)
    (Iql.coerce resolve op p c).
Proof.
  unfold Iql.coerce.
  destruct (param_type p), c; simpl; auto.
  destruct (similarity_hint p) as [hint|]; simpl; [|exact I].
  destruct (resolve hint s); simpl; [exact I|]. right; now eexists.
Qed.

(** With as many arguments as parameters, coercion fails only on a type or
    on a similarity value. *)
Lemma coerce_all_semantic (resolve : string -> string -> option string)
    (op : string) (ps : list MethodParam) :
  forall cs, List.length ps = List.length cs ->
  raises_only
    (fun e => e = Iql.TypeMismatch op \/ exists raw, e = Iql.UnresolvedSimilarityValue raw)
    (Iql.coerce_all resolve op ps cs).
Proof.
  induction ps as [|p ps IH]; intros [|c cs] Hlen; simpl in *;
    try discriminate; [exact I|].
  apply rbind_raises_only; [apply coerce_semantic|]. intros v.
  apply rbind_raises_only; [apply IH; congruence | intros; exact I].
Qed.

(** Which failure of the validator gives which kind. *)
Lemma validate_call_kinds (resolve : string -> string -> option string)
    (registry_entries : list ExposedFunction) (call : Iql.ParsedCall) :
  match find (fun op => String.eqb (name op) (Iql.call_name call))
             registry_entries with
  | None =>
      Iql.validate_call resolve registry_entries call
      = Raise (Iql.UnsupportedOperation (Iql.call_name call))
  | Some op =>
      if Nat.eqb (List.length (parameters op)) (List.length (Iql.call_args call))
      then
        raises_only
          (fun e => e = Iql.TypeMismatch (name op)
                    \/ exists raw, e = Iql.UnresolvedSimilarityValue raw)
          (Iql.validate_call resolve registry_entries call)
      else
        Iql.validate_call resolve registry_entries call
        = Raise (Iql.ArityMismatch (name op))
  end.
Proof.
  unfold Iql.validate_call.
  destruct (find _ registry_entries) as [op|]; [|reflexivity].
  destruct (Nat.eqb _ _) eqn:E; [|reflexivity].
  apply Nat.eqb_eq in E.
  apply rbind_raises_only;
    [now apply coerce_all_semantic | intros; exact I].
Qed.

Lemma validate_call_semantic (resolve : string -> string -> option string)
    (registry_entries : list ExposedFunction) (call : Iql.ParsedCall) :
  raises_only semantic_violation
    (Iql.validate_call resolve registry_entries call).
Proof.
  pose proof (validate_call_kinds resolve registry_entries call) as H.
  destruct (find _ registry_entries) as [op|].
  - destruct (Nat.eqb _ _).
    + destruct (Iql.validate_call resolve registry_entries call);
        simpl in *; [exact I|].
      destruct H as [->|[raw ->]]; eexists; eauto.
    + rewrite H; simpl. eexists; eauto.
  - rewrite H; simpl. eexists; eauto.
Qed.

Lemma validate_semantic (resolve : string -> string -> option string)
    (calls : list Iql.ParsedCall) (registry_entries : list ExposedFunction) :
  raises_only semantic_violation (Iql.validate resolve calls registry_entries).
Proof. apply mapM_raises_only, validate_call_semantic. Qed.

Lemma grammar_violation_kind (e : exn) :
  grammar_violation e -> syntax_kind e = true.
Proof. intros [msg [->| ->]]; reflexivity. Qed.

Lemma semantic_violation_kind (e : exn) :
  semantic_violation e -> syntax_kind e = false.
Proof. intros [detail [->|[->|[->| ->]]]]; reflexivity. Qed.

(** The first failure of the full parse, stage by stage. *)
Lemma outcome_of_text (parse : string -> result (list Iql.ParsedCall))
    (source : string) (registry_entries : list ExposedFunction) :
  (forall s, raises_only grammar_violation (parse s)) ->
  match text_outcome parse source registry_entries with
  | Passes =>
      is_ok (rbind (parse source)
               (fun calls => Iql.validate no_similarity calls registry_entries))
      = true
  | SyntaxErrorOutcome e =>
      rbind (parse source)
        (fun calls => Iql.validate no_similarity calls registry_entries)
      = Raise e /\ grammar_violation e
  | SemanticErrorOutcome e =>
      rbind (parse source)
        (fun calls => Iql.validate no_similarity calls registry_entries)
      = Raise e /\ semantic_violation e
  end.
Proof.
  intros Hparse. unfold text_outcome. specialize (Hparse source).
  destruct (parse source) as [calls|e]; simpl in *; [|now split].
  pose proof (validate_semantic no_similarity calls registry_entries) as Hv.
  destruct (Iql.validate no_similarity calls registry_entries); simpl in *;
    [reflexivity | now split].
Qed.

Lemma outcome_of_example (filter_list action_list : list ExposedFunction)
    (example : IQLResult) :
  match example_outcome filter_list action_list example with
  | Passes =>
      @first_failure spec_front_end filter_list action_list example = None
  | SyntaxErrorOutcome e =>
      @first_failure spec_front_end filter_list action_list example = Some e
      /\ grammar_violation e
  | SemanticErrorOutcome e =>
      @first_failure spec_front_end filter_list action_list example = Some e
      /\ semantic_violation e
  end.
Proof.
  unfold example_outcome, first_failure.
  change (@IQLQuery_parse spec_front_end)
    with (Iql.IQLQuery_parse no_similarity).
  change (@IQLActions_parse spec_front_end)
    with (Iql.IQLActions_parse no_similarity).
  unfold Iql.IQLQuery_parse, Iql.IQLActions_parse.
  pose proof (outcome_of_text Iql.parse_filters (iql_filters example) filter_list
                parse_filters_grammar) as Hf.
  pose proof (outcome_of_text Iql.parse_actions (iql_actions example) action_list
                parse_actions_grammar) as Ha.
  destruct (text_outcome Iql.parse_filters (iql_filters example) filter_list).
  - destruct (rbind (Iql.parse_filters _) _); [|discriminate].
    destruct (text_outcome Iql.parse_actions (iql_actions example) action_list).
    + destruct (rbind (Iql.parse_actions _) _); [reflexivity | discriminate].
    + destruct Ha as [-> Hg]. now split.
    + destruct Ha as [-> Hs]. now split.
  - destruct Hf as [-> Hg]. now split.
  - destruct Hf as [-> Hs]. now split.
Qed.

Lemma syntax_failure_by_stage (filter_list action_list : list ExposedFunction)
    (example : IQLResult) :
  @syntax_failure spec_front_end filter_list action_list example
    = syntax_error_outcome filter_list action_list example
  /\ @semantic_failure spec_front_end filter_list action_list example
     = semantic_error_outcome filter_list action_list example.
Proof.
  unfold syntax_failure, semantic_failure, syntax_error_outcome,
    semantic_error_outcome.
  pose proof (outcome_of_example filter_list action_list example) as H.
  destruct (example_outcome filter_list action_list example).
  - rewrite H. now split.
  - destruct H as [-> Hg]. rewrite (grammar_violation_kind _ Hg). now split.
  - destruct H as [-> Hs]. rewrite (semantic_violation_kind _ Hs). now split.
Qed.

End StageFacts.

Module StageTheorems.
Import Metrics MetricsFacts Examples StageFacts.



End StageTheorems.

(* ------------------------------------------------------------------ *)
(** ** Scenarios on the registry of [MockSqlAlchemyView] *)

Module Scenarios.
Import Metrics Examples Views.

(** One hallucinated filter out of two filter calls: the rate of the
    one-record dataset is one half. *)
Example one_hallucinated_filter_of_two :
  calculate_hallucinated_filters_for_dataset 0%nat mock_filters
    (store 0%nat [hallucinating_record] empty_world)
  = (Ok (1 # 2), store 0%nat [hallucinating_record] empty_world).
Proof. vm_compute; reflexivity. Qed.

(** An unknown operation is a failure of validation: the record is not a
    syntax error, and the exception is what reaches the logger. *)
Example unknown_operation_is_logged :
  calculate_syntax_errors 0%nat mock_filters mock_actions
    (store 0%nat [hallucinating_record] empty_world)
  = (Ok 0%Q,
     logged (store 0%nat [hallucinating_record] empty_world)
       [Iql.UnsupportedOperation "bad_method"]).
Proof. vm_compute; reflexivity. Qed.

(** Counts are summed before the division: one call, hallucinated, in one
    record and three calls, none hallucinated, in the other give one
    quarter, where the mean of the two per-record ratios is one half. *)
Example sums_not_averaged_ratios :
  let r1 := record "bad_method(1)" "action_baz()" in
  let r2 := record "method_foo(1) and method_foo(2) and method_foo(3)"
                   "action_baz()" in
  fst (calculate_hallucinated_filters_for_dataset 0%nat mock_filters
         (store 0%nat [r1; r2] empty_world)) = Ok (1 # 4)
  /\ fst (calculate_hallucinated_filters_for_dataset 0%nat mock_filters
            (store 0%nat [r1] empty_world)) = Ok 1%Q
  /\ fst (calculate_hallucinated_filters_for_dataset 0%nat mock_filters
            (store 0%nat [r2] empty_world)) = Ok 0%Q.
Proof. vm_compute; repeat split; reflexivity. Qed.

(** A call among the arguments of a call is outside the IQL grammar; the
    tolerant pass lists both calls. *)
Example nested_call_is_rejected_and_counted :
  Iql.IQLQuery_parse no_similarity (iql_filters nested_record) mock_filters
    = Raise (Iql.IQLUnsupportedSyntaxError "argument")
  /\ _count_hallucinated_methods_for_single_example
       (iql_filters nested_record) (map name mock_filters) empty_world
     = (Ok (1, 2), empty_world).
Proof. vm_compute; split; reflexivity. Qed.

(** The whole summary of a dataset of two records. *)
Example summary_of_two_records :
  fst (calculate_dataset_metrics 0%nat mock_filters mock_actions
         (store 0%nat [valid_record; unbalanced_record] empty_world))
  = Ok [("valid_iql", 1 # 2);
        ("hallucinated_filters", 0%Q);
        ("hallucinated_actions", 0%Q);
        ("syntax_errors", 1 # 2)].
Proof. vm_compute; reflexivity. Qed.

End Scenarios.

(* ------------------------------------------------------------------ *)
(** ** Further properties of the metrics, for every front end *)

Module RatioFacts.

(** With a positive denominator the ratio is the quotient. *)
Lemma ratio_quotient (n d : Z) :
  0 < d -> (ratio n d == n # Z.to_pos d)%Q.
Proof.
  intros Hd; unfold ratio.
  destruct (d =? 0) eqn:E; [apply Z.eqb_eq in E; lia|].
  rewrite Qred_correct.
  destruct d as [|p|p]; try lia.
  unfold Qdiv, Qinv, Qmult, inject_Z, Qeq; simpl. lia.
Qed.

Lemma ratio_zero_denominator (n : Z) : ratio n 0 = 0%Q.
Proof. reflexivity. Qed.

Lemma ratio_bounds (n d : Z) :
  0 <= n <= d -> (0 <= ratio n d /\ ratio n d <= 1)%Q.
Proof.
  intros [Hn Hd].
  destruct (Z.eq_dec d 0) as [->|Hnz].
  - rewrite ratio_zero_denominator; split; discriminate.
  - rewrite ratio_quotient by lia.
    unfold Qle; simpl. rewrite Z2Pos.id by lia. lia.
Qed.

Lemma ratio_monotone (n n' d : Z) :
  0 <= d -> n <= n' -> (ratio n d <= ratio n' d)%Q.
Proof.
  intros Hd Hn.
  destruct (Z.eq_dec d 0) as [->|Hnz].
  - rewrite !ratio_zero_denominator; discriminate.
  - rewrite !ratio_quotient by lia.
    unfold Qle; simpl. rewrite Z2Pos.id by lia. nia.
Qed.

Lemma ratio_add (a b d : Z) :
  0 < d -> (ratio a d + ratio b d == ratio (a + b) d)%Q.
Proof.
  intros Hd. rewrite !ratio_quotient by lia.
  unfold Qeq, Qplus; simpl. rewrite ?Pos2Z.inj_mul, Z2Pos.id by lia. ring.
Qed.

(** Equal quotients are the same ratio. *)
Lemma ratio_cross (n d n' d' : Z) :
  0 < d -> 0 < d' -> n * d' = n' * d -> ratio n d = ratio n' d'.
Proof.
  intros Hd Hd' H. unfold ratio.
  destruct (d =? 0) eqn:E; [apply Z.eqb_eq in E; lia|].
  destruct (d' =? 0) eqn:E'; [apply Z.eqb_eq in E'; lia|].
  apply Qred_complete.
  destruct d as [|p|p]; try lia. destruct d' as [|p'|p']; try lia.
  unfold Qdiv, Qinv, Qmult, inject_Z, Qeq; simpl. lia.
Qed.

Lemma ratio_full (d : Z) : 0 < d -> ratio d d = 1%Q.
Proof.
  intros Hd. rewrite (ratio_cross d d 1 1) by lia. reflexivity.
Qed.

Lemma ratio_scale (k n d : Z) :
  0 < k -> 0 <= d -> ratio (k * n) (k * d) = ratio n d.
Proof.
  intros Hk Hd.
  destruct (Z.eq_dec d 0) as [->|Hnz].
  - now rewrite Z.mul_0_r.
  - apply ratio_cross; nia.
Qed.

Lemma ratio_zero_iff (n d : Z) :
  0 <= n <= d -> (ratio n d = 0%Q <-> n = 0).
Proof.
  intros [Hn Hd]. destruct (Z.eq_dec d 0) as [->|Hnz].
  - rewrite ratio_zero_denominator. split; [lia | reflexivity].
  - split.
    + intros H.
      assert (Hq : (ratio n d == 0)%Q) by now rewrite H.
      rewrite ratio_quotient in Hq by lia.
      unfold Qeq in Hq; simpl in Hq. lia.
    + intros ->. now rewrite (ratio_cross 0 d 0 1) by lia.
Qed.

(** A pooled ratio lies between the two ratios it pools. *)
Lemma ratio_mediant (h1 t1 h2 t2 : Z) :
  0 <= h1 <= t1 -> 0 <= h2 <= t2 ->
  (Qmin (ratio h1 t1) (ratio h2 t2) <= ratio (h1 + h2) (t1 + t2)
   /\ ratio (h1 + h2) (t1 + t2) <= Qmax (ratio h1 t1) (ratio h2 t2))%Q.
Proof.
  intros H1 H2.
  destruct (Z.eq_dec t1 0) as [E1|E1].
  { assert (h1 = 0) by lia; subst h1 t1. rewrite !Z.add_0_l.
    split; [apply Q.le_min_r | apply Q.le_max_r]. }
  destruct (Z.eq_dec t2 0) as [E2|E2].
  { assert (h2 = 0) by lia; subst h2 t2. rewrite !Z.add_0_r.
    split; [apply Q.le_min_l | apply Q.le_max_l]. }
  assert (Hcmp : forall a b c d, 0 < b -> 0 < d ->
            ((ratio a b <= ratio c d)%Q <-> a * d <= c * b)).
  { intros a b c d Hb Hd. rewrite !ratio_quotient by lia.
    unfold Qle; simpl. rewrite !Z2Pos.id by lia. reflexivity. }
  destruct (Qlt_le_dec (ratio h2 t2) (ratio h1 t1)) as [Hlt|Hle].
  - apply Qlt_le_weak in Hlt.
    rewrite (Q.min_r _ _ Hlt), (Q.max_l _ _ Hlt).
    apply (proj1 (Hcmp h2 t2 h1 t1 ltac:(lia) ltac:(lia))) in Hlt.
    split; apply Hcmp; try lia; nia.
  - rewrite (Q.min_l _ _ Hle), (Q.max_r _ _ Hle).
    apply (proj1 (Hcmp h1 t1 h2 t2 ltac:(lia) ltac:(lia))) in Hle.
    split; apply Hcmp; try lia; nia.
Qed.

End RatioFacts.

Module CountFacts.
Import Metrics MetricsFacts RatioFacts.

Section WithFrontEnd.
Context {FE : FrontEnd}.

Lemma hallucinated_bounds (allowed names : list string) :
  0 <= count (hallucinated allowed names) <= count names.
Proof.
  unfold count, hallucinated.
  pose proof (filter_length_le (fun m => negb (py_in m allowed)) names).
  lia.
Qed.

Lemma hallucinated_calls_bounds (allowed texts : list string) :
  0 <= hallucinated_calls allowed texts <= extracted_calls texts.
Proof.
  unfold hallucinated_calls, extracted_calls.
  induction texts as [|iql texts IH]; simpl; [lia|].
  pose proof (hallucinated_bounds allowed (extracted_names iql)). lia.
Qed.

Lemma both_pass_no_failure (filter_list action_list : list ExposedFunction)
    (example : IQLResult) :
  both_pass filter_list action_list example = true
  <-> first_failure filter_list action_list example = None.
Proof.
  unfold both_pass, first_failure.
  destruct (IQLQuery_parse _ _); [destruct (IQLActions_parse _ _)|];
    simpl; split; congruence.
Qed.

(** Every example is valid, a syntax error, or a failure of another kind,
    and only one of the three. *)
Lemma three_way_split (filter_list action_list : list ExposedFunction)
    (examples : list IQLResult) :
  count (filter (both_pass filter_list action_list) examples)
  + count (filter (syntax_failure filter_list action_list) examples)
  + count (flat_map (semantic_failure filter_list action_list) examples)
  = count examples.
Proof.
  induction examples as [|ex examples IH]; [reflexivity|].
  cbn [filter flat_map]. rewrite count_app, (count_cons ex examples).
  unfold syntax_failure at 1, semantic_failure at 1.
  destruct (both_pass filter_list action_list ex) eqn:Hb.
  - apply both_pass_no_failure in Hb; rewrite Hb.
    rewrite count_cons. change (count (@nil exn)) with 0. lia.
  - destruct (first_failure filter_list action_list ex) as [e|] eqn:Hf.
    + destruct (syntax_kind e); rewrite ?count_cons;
        change (count (@nil exn)) with 0; lia.
    + apply both_pass_no_failure in Hf; congruence.
Qed.

Lemma failures_are_the_invalid (filter_list action_list : list ExposedFunction)
    (examples : list IQLResult) :
  count (flat_map (any_failure filter_list action_list) examples)
  = count examples
    - count (filter (both_pass filter_list action_list) examples).
Proof.
  induction examples as [|ex examples IH]; [reflexivity|].
  cbn [filter flat_map]. rewrite count_app, (count_cons ex examples).
  unfold any_failure at 1.
  destruct (both_pass filter_list action_list ex) eqn:Hb.
  - apply both_pass_no_failure in Hb; rewrite Hb.
    rewrite count_cons. change (count (@nil exn)) with 0. lia.
  - destruct (first_failure filter_list action_list ex) as [e|] eqn:Hf.
    + rewrite count_cons; change (count (@nil exn)) with 0; lia.
    + apply both_pass_no_failure in Hf; congruence.
Qed.

(** Allowing more names leaves fewer calls hallucinated. *)
Lemma hallucinated_calls_antitone (allowed added texts : list string) :
  hallucinated_calls (allowed ++ added) texts
  <= hallucinated_calls allowed texts.
Proof.
  unfold hallucinated_calls.
  induction texts as [|iql texts IH]; simpl; [lia|].
  assert (count (hallucinated (allowed ++ added) (extracted_names iql))
          <= count (hallucinated allowed (extracted_names iql))).
  { unfold count, hallucinated.
    induction (extracted_names iql) as [|m ms IHm]; cbn [filter]; [lia|].
    unfold py_in in *. rewrite existsb_app, negb_orb.
    destruct (negb (existsb (String.eqb m) allowed)),
             (negb (existsb (String.eqb m) added));
      cbn [andb List.length]; lia. }
  lia.
Qed.

(** Two examples with the same first failure are counted alike. *)
Lemma same_failure_same_count (filter_list action_list : list ExposedFunction)
    (example example' : IQLResult) :
  first_failure filter_list action_list example
    = first_failure filter_list action_list example' ->
  both_pass filter_list action_list example
    = both_pass filter_list action_list example'
  /\ syntax_failure filter_list action_list example
     = syntax_failure filter_list action_list example'
  /\ semantic_failure filter_list action_list example
     = semantic_failure filter_list action_list example'
  /\ any_failure filter_list action_list example
     = any_failure filter_list action_list example'.
Proof.
  intros H. unfold syntax_failure, semantic_failure, any_failure.
  rewrite H. repeat split.
  apply eq_true_iff_eq. rewrite !both_pass_no_failure. now rewrite H.
Qed.

Lemma instance_by_inheritance (e : exn) (cls : string) :
  In cls (exn_bases e) -> isinstance e cls = true.
Proof.
  intros H; unfold isinstance.
  assert (existsb (String.eqb cls) (exn_bases e) = true) as ->.
  { apply existsb_exists; exists cls; split;
      [assumption | apply String.eqb_refl]. }
  apply orb_true_r.
Qed.

Lemma filter_count_bounds {A} (p : A -> bool) (xs : list A) :
  0 <= count (filter p xs) <= count xs.
Proof. unfold count; pose proof (filter_length_le p xs); lia. Qed.

Lemma count_zero_nil {A} (xs : list A) : count xs = 0 <-> xs = [].
Proof.
  unfold count; destruct xs; simpl; split; try congruence; try lia.
Qed.

Lemma count_positive {A} (xs : list A) : xs <> [] -> 0 < count xs.
Proof. destruct xs; [congruence|unfold count; simpl; lia]. Qed.

Lemma truediv_world (a b : Z) (w : World) : snd (py_truediv a b w) = w.
Proof. unfold py_truediv; destruct (b =? 0); reflexivity. Qed.

Lemma truediv_value (a b : Z) (w : World) :
  fst (py_truediv a b w)
  = if b =? 0 then Raise ZeroDivisionError else Ok (ratio a b).
Proof. unfold py_truediv, ratio; destruct (b =? 0); reflexivity. Qed.

(** The whole run of [calculate_dataset_metrics]. *)
Lemma dataset_metrics_run (dataset : ref)
    (filter_list action_list : list ExposedFunction) (w : World) :
  calculate_dataset_metrics dataset filter_list action_list w
  = (if count (heap w dataset) =? 0 then Raise ZeroDivisionError
     else
       Ok [("valid_iql",
            ratio (count (filter (both_pass filter_list action_list)
                            (heap w dataset)))
                  (count (heap w dataset)));
           ("hallucinated_filters",
            ratio (hallucinated_calls (map name filter_list)
                     (map iql_filters (heap w dataset)))
                  (extracted_calls (map iql_filters (heap w dataset))));
           ("hallucinated_actions",
            ratio (hallucinated_calls (map name action_list)
                     (map iql_actions (heap w dataset)))
                  (extracted_calls (map iql_actions (heap w dataset))));
           ("syntax_errors",
            ratio (count (filter (syntax_failure filter_list action_list)
                            (heap w dataset)))
                  (count (heap w dataset)))],
     logged w
       (flat_map (any_failure filter_list action_list) (heap w dataset)
        ++ flat_map (semantic_failure filter_list action_list)
             (heap w dataset))).
Proof.
  unfold calculate_dataset_metrics, bind.
  rewrite valid_iql_run.
  destruct (count (heap w dataset) =? 0) eqn:E.
  - unfold py_truediv; rewrite E.
    apply Z.eqb_eq, count_zero_nil in E. now rewrite E.
  - unfold py_truediv at 1; rewrite E. unfold ret at 1.
    rewrite hallucinated_filters_run, hallucinated_actions_run.
    rewrite syntax_errors_run. cbn [logged heap].
    unfold py_truediv; rewrite E. unfold ret, ratio; rewrite E.
    now rewrite logged_logged.
Qed.

(** Counting is blind to the order of the examples. *)
Lemma count_filter_permutation {A} (p : A -> bool) (xs ys : list A) :
  Permutation xs ys -> count (filter p xs) = count (filter p ys).
Proof.
  induction 1 as [|x xs ys _ IH|x y xs|xs ys zs _ IH1 _ IH2];
    cbn [filter].
  - reflexivity.
  - destruct (p x); rewrite ?count_cons; lia.
  - destruct (p x), (p y); rewrite ?count_cons; lia.
  - lia.
Qed.

Lemma sum_map_permutation {A} (f : A -> Z) (xs ys : list A) :
  Permutation xs ys -> sum (map f xs) = sum (map f ys).
Proof.
  induction 1 as [|x xs ys _ IH|x y xs|xs ys zs _ IH1 _ IH2]; simpl; lia.
Qed.

Lemma count_permutation {A} (xs ys : list A) :
  Permutation xs ys -> count xs = count ys.
Proof. intros H; unfold count; now rewrite (Permutation_length H). Qed.

Lemma py_in_In (x : string) (xs : list string) :
  py_in x xs = true <-> In x xs.
Proof.
  unfold py_in; rewrite existsb_exists; split.
  - intros (y & Hy & E); apply String.eqb_eq in E; now subst.
  - intros H; exists x; split; [assumption | apply String.eqb_refl].
Qed.

Lemma sum_zero_iff (zs : list Z) :
  (forall z, In z zs -> 0 <= z) ->
  (sum zs = 0 <-> forall z, In z zs -> z = 0).
Proof.
  induction zs as [|z zs IH]; intros Hpos; simpl.
  - split; [intros _ z [] | reflexivity].
  - assert (0 <= z) by (apply Hpos; now left).
    assert (Hrest : forall z', In z' zs -> 0 <= z')
      by (intros z' Hz'; apply Hpos; now right).
    assert (0 <= sum zs).
    { clear IH. induction zs as [|z' zs IHz]; simpl; [lia|].
      assert (0 <= z') by (apply Hrest; now left).
      assert (0 <= sum zs)
        by (apply IHz; [intros; apply Hpos; simpl in *; tauto
                       | intros; apply Hrest; now right]).
      lia. }
    specialize (IH Hrest). split.
    + intros Hsum z' [<-|Hz']; [lia | apply IH; [lia | assumption]].
    + intros Hall. rewrite (Hall z) by now left.
      rewrite (proj2 IH); [reflexivity|]. intros z' Hz'; apply Hall; now right.
Qed.

Lemma filter_nil_iff {A} (p : A -> bool) (xs : list A) :
  filter p xs = [] <-> forall x, In x xs -> p x = false.
Proof.
  induction xs as [|x xs IH]; cbn [filter].
  - split; [intros _ x [] | reflexivity].
  - destruct (p x) eqn:E; split.
    + discriminate.
    + intros H. specialize (H x (or_introl eq_refl)). congruence.
    + intros H y [<-|Hy]; [assumption | now apply IH].
    + intros H. apply IH. intros y Hy; apply H; now right.
Qed.

(** No extracted call of any of the texts is hallucinated exactly when every
    extracted name is allowed. *)
Lemma no_hallucinated_calls (allowed texts : list string) :
  hallucinated_calls allowed texts = 0
  <-> forall iql, In iql texts ->
      forall method, In method (extracted_names iql) -> In method allowed.
Proof.
  unfold hallucinated_calls. rewrite sum_zero_iff.
  - split.
    + intros H iql Hiql method Hm.
      specialize (H _ (in_map
                         (fun iql => count (hallucinated allowed
                                              (extracted_names iql)))
                         _ _ Hiql)).
      apply count_zero_nil in H. unfold hallucinated in H.
      rewrite filter_nil_iff in H. specialize (H method Hm).
      apply negb_false_iff in H. now apply py_in_In.
    + intros H z Hz. apply in_map_iff in Hz as (iql & <- & Hiql).
      apply count_zero_nil. unfold hallucinated. apply filter_nil_iff.
      intros method Hm. apply negb_false_iff, py_in_In. now apply (H iql).
  - intros z Hz. apply in_map_iff in Hz as (iql & <- & _).
    apply hallucinated_bounds.
Qed.

End WithFrontEnd.
End CountFacts.

Module MetricsProperties.
Import Metrics MetricsFacts Examples RatioFacts CountFacts.

(** X1.  Both hallucination rates are numbers between 0 and 1, whatever
    the dataset and the registry, and computing them changes nothing. *)
Theorem hallucination_rates_within_unit_interval {FE : FrontEnd}
    (dataset : ref) (filter_list action_list : list ExposedFunction)
    (w : World) :
  (exists r,
     calculate_hallucinated_filters_for_dataset dataset filter_list w
       = (Ok r, w) /\ (0 <= r)%Q /\ (r <= 1)%Q)
  /\ (exists r,
        calculate_hallucinated_actions_for_dataset dataset action_list w
          = (Ok r, w) /\ (0 <= r)%Q /\ (r <= 1)%Q).
Proof.
  split; eexists; (split;
    [first [apply hallucinated_filters_run | apply hallucinated_actions_run]
    | apply ratio_bounds, hallucinated_calls_bounds]).
Qed.

(** X2.  For one example the count of hallucinated methods is at least 0
    and at most the count of all predicted methods. *)
Theorem single_example_counts_are_ordered {FE : FrontEnd} (iql : string)
    (allowed_methods : list string) (w : World) :
  exists hallucinated_methods_count total,
    _count_hallucinated_methods_for_single_example iql allowed_methods w
      = (Ok (hallucinated_methods_count, total), w)
    /\ 0 <= hallucinated_methods_count <= total.
Proof.
  do 2 eexists; split; [apply single_example | apply hallucinated_bounds].
Qed.

(** X3.  On a dataset that is not empty the valid-IQL rate and the
    syntax-error rate are both returned and lie between 0 and 1. *)
Theorem parse_rates_within_unit_interval {FE : FrontEnd} (dataset : ref)
    (filter_list action_list : list ExposedFunction) (w : World) :
  heap w dataset <> [] ->
  exists valid_iql syntax_errors,
    fst (calculate_valid_iql dataset filter_list action_list w)
      = Ok valid_iql
    /\ fst (calculate_syntax_errors dataset filter_list action_list w)
       = Ok syntax_errors
    /\ (0 <= valid_iql)%Q /\ (valid_iql <= 1)%Q
    /\ (0 <= syntax_errors)%Q /\ (syntax_errors <= 1)%Q.
Proof.
  intros Hne. pose proof (count_positive _ Hne) as Hpos.
  pose proof (filter_count_bounds (both_pass filter_list action_list)
                (heap w dataset)) as Hv.
  pose proof (filter_count_bounds (syntax_failure filter_list action_list)
                (heap w dataset)) as Hs.
  rewrite valid_iql_run, syntax_errors_run, !truediv_nonzero by lia.
  do 2 eexists. split; [reflexivity|]. split; [reflexivity|].
  repeat split; apply ratio_bounds; lia.
Qed.

Lemma parse_rates_within_unit_interval_witness :
  heap (store 0%nat [valid_record; unbalanced_record] empty_world) 0%nat
    <> []
  /\ exists valid_iql syntax_errors,
       fst (@calculate_valid_iql spec_front_end 0%nat mock_filters
              mock_actions
              (store 0%nat [valid_record; unbalanced_record] empty_world))
         = Ok valid_iql
       /\ fst (@calculate_syntax_errors spec_front_end 0%nat mock_filters
                 mock_actions
                 (store 0%nat [valid_record; unbalanced_record]
                    empty_world))
          = Ok syntax_errors
       /\ (0 <= valid_iql)%Q /\ (valid_iql <= 1)%Q
       /\ (0 <= syntax_errors)%Q /\ (syntax_errors <= 1)%Q.
Proof.
  assert (H : heap (store 0%nat [valid_record; unbalanced_record]
                      empty_world) 0%nat <> [])
    by (simpl; discriminate).
  split; [exact H|].
  exact (@parse_rates_within_unit_interval spec_front_end 0%nat mock_filters
           mock_actions _ H).
Defined.

(** X4.  On a dataset that is not empty the valid-IQL rate and the
    syntax-error rate add up to at most 1: no example is both valid and a
    syntax error.  They add up to exactly 1 exactly when
    [calculate_syntax_errors] logged nothing, that is when every invalid
    example failed with an exception of a class the counter lists. *)
Theorem valid_and_syntax_error_rates_sum_to_at_most_one {FE : FrontEnd}
    (dataset : ref) (filter_list action_list : list ExposedFunction)
    (w : World) :
  heap w dataset <> [] ->
  exists valid_iql syntax_errors,
    fst (calculate_valid_iql dataset filter_list action_list w)
      = Ok valid_iql
    /\ fst (calculate_syntax_errors dataset filter_list action_list w)
       = Ok syntax_errors
    /\ (valid_iql + syntax_errors <= 1)%Q
    /\ ((valid_iql + syntax_errors == 1)%Q
        <-> sink (snd (calculate_syntax_errors dataset filter_list
                         action_list w)) = sink w).
Proof.
  intros Hne. pose proof (count_positive _ Hne) as Hpos.
  pose proof (three_way_split filter_list action_list (heap w dataset))
    as Hsplit.
  pose proof (filter_count_bounds (both_pass filter_list action_list)
                (heap w dataset)) as Hv.
  pose proof (filter_count_bounds (syntax_failure filter_list action_list)
                (heap w dataset)) as Hs.
  assert (Hsem : 0 <= count (flat_map
                               (semantic_failure filter_list action_list)
                               (heap w dataset))) by (unfold count; lia).
  rewrite valid_iql_run, syntax_errors_run, !truediv_nonzero by lia.
  do 2 eexists. split; [reflexivity|]. split; [reflexivity|].
  cbn [snd logged sink].
  repeat split.
  - rewrite ratio_add by lia. apply ratio_bounds; lia.
  - rewrite ratio_add, ratio_quotient by lia.
    unfold Qeq; simpl. rewrite Z2Pos.id by lia. intros H.
    assert (Hz : count (flat_map (semantic_failure filter_list action_list)
                          (heap w dataset)) = 0) by lia.
    apply count_zero_nil in Hz. rewrite Hz. apply app_nil_r.
  - intros H.
    assert (Hnil : flat_map (semantic_failure filter_list action_list)
                     (heap w dataset) = []).
    { apply (app_inv_head (sink w)). now rewrite app_nil_r. }
    rewrite Hnil in Hsplit. change (count (@nil exn)) with 0 in Hsplit.
    rewrite ratio_add, ratio_quotient by lia.
    unfold Qeq; simpl. rewrite Z2Pos.id by lia. lia.
Qed.

Lemma valid_and_syntax_error_rates_sum_to_at_most_one_witness :
  heap (store 0%nat [valid_record; hallucinating_record] empty_world) 0%nat
    <> []
  /\ exists valid_iql syntax_errors,
       fst (@calculate_valid_iql spec_front_end 0%nat mock_filters
              mock_actions
              (store 0%nat [valid_record; hallucinating_record]
                 empty_world))
         = Ok valid_iql
       /\ fst (@calculate_syntax_errors spec_front_end 0%nat mock_filters
                 mock_actions
                 (store 0%nat [valid_record; hallucinating_record]
                    empty_world))
          = Ok syntax_errors
       /\ (valid_iql + syntax_errors <= 1)%Q.
Proof.
  assert (H : heap (store 0%nat [valid_record; hallucinating_record]
                      empty_world) 0%nat <> [])
    by (simpl; discriminate).
  split; [exact H|].
  destruct (@valid_and_syntax_error_rates_sum_to_at_most_one spec_front_end
              0%nat mock_filters mock_actions _ H)
    as (v & s & Hv & Hs & Hle & _).
  exists v, s; repeat split; assumption.
Defined.

(** X5.  [calculate_valid_iql] logs one warning for each example that is
    not valid and nothing else: the number of warnings it adds is the
    length of the dataset less the number of valid examples (also when the
    dataset is empty and the division raises). *)
Theorem valid_iql_warns_once_per_invalid_example {FE : FrontEnd}
    (dataset : ref) (filter_list action_list : list ExposedFunction)
    (w : World) :
  exists warnings,
    snd (calculate_valid_iql dataset filter_list action_list w)
      = logged w warnings
    /\ count warnings
       = count (heap w dataset)
         - count (filter (both_pass filter_list action_list)
                    (heap w dataset)).
Proof.
  eexists; split.
  - rewrite valid_iql_run; apply truediv_world.
  - apply failures_are_the_invalid.
Qed.

(** X6.  [calculate_dataset_metrics] parses every example twice, once for
    each of the two parse-based metrics: what it adds to the log is the
    failure of every invalid example, in dataset order, followed by the
    failures that are not of syntax-error kind, again in dataset order; a
    failure of another kind is thus logged twice. *)
Theorem dataset_metrics_log_other_failures_twice {FE : FrontEnd}
    (dataset : ref) (filter_list action_list : list ExposedFunction)
    (w : World) :
  snd (calculate_dataset_metrics dataset filter_list action_list w)
  = logged w
      (flat_map (any_failure filter_list action_list) (heap w dataset)
       ++ flat_map (semantic_failure filter_list action_list)
            (heap w dataset)).
Proof. now rewrite dataset_metrics_run. Qed.

(** X7.  [calculate_dataset_metrics], [calculate_valid_iql] and
    [calculate_syntax_errors] return exactly when the dataset is not empty:
    no exception of a parser escapes them, and the only exception they
    raise is the division by the length 0. *)
Theorem dataset_metrics_raise_only_on_the_empty_dataset {FE : FrontEnd}
    (dataset : ref) (filter_list action_list : list ExposedFunction)
    (w : World) :
  is_ok (fst (calculate_dataset_metrics dataset filter_list action_list w))
    = negb (Nat.eqb (List.length (heap w dataset)) 0)
  /\ is_ok (fst (calculate_valid_iql dataset filter_list action_list w))
     = negb (Nat.eqb (List.length (heap w dataset)) 0)
  /\ is_ok (fst (calculate_syntax_errors dataset filter_list action_list w))
     = negb (Nat.eqb (List.length (heap w dataset)) 0).
Proof.
  rewrite dataset_metrics_run, valid_iql_run, syntax_errors_run.
  rewrite !truediv_value. cbn [fst].
  unfold count; destruct (heap w dataset); simpl; repeat split; reflexivity.
Qed.

(** X8.  The metrics do not depend on the order of the examples: on two
    datasets that are permutations of each other the summary and each of
    the four rates are the same (only the order of the warnings can
    differ). *)
Theorem rates_ignore_the_order_of_the_dataset {FE : FrontEnd}
    (dataset : ref) (filter_list action_list : list ExposedFunction)
    (examples examples' : list IQLResult) (w : World) :
  Permutation examples examples' ->
  fst (calculate_dataset_metrics dataset filter_list action_list
         (store dataset examples w))
    = fst (calculate_dataset_metrics dataset filter_list action_list
             (store dataset examples' w))
  /\ fst (calculate_valid_iql dataset filter_list action_list
            (store dataset examples w))
     = fst (calculate_valid_iql dataset filter_list action_list
              (store dataset examples' w))
  /\ fst (calculate_syntax_errors dataset filter_list action_list
            (store dataset examples w))
     = fst (calculate_syntax_errors dataset filter_list action_list
              (store dataset examples' w))
  /\ fst (calculate_hallucinated_filters_for_dataset dataset filter_list
            (store dataset examples w))
     = fst (calculate_hallucinated_filters_for_dataset dataset filter_list
              (store dataset examples' w))
  /\ fst (calculate_hallucinated_actions_for_dataset dataset action_list
            (store dataset examples w))
     = fst (calculate_hallucinated_actions_for_dataset dataset action_list
              (store dataset examples' w)).
Proof.
  intros Hperm.
  rewrite !dataset_metrics_run, !valid_iql_run, !syntax_errors_run,
    !hallucinated_filters_run, !hallucinated_actions_run, !truediv_value,
    !heap_store.
  cbn [fst]. unfold hallucinated_calls, extracted_calls. rewrite !map_map.
  rewrite (count_permutation _ _ Hperm).
  rewrite (count_filter_permutation (both_pass filter_list action_list)
             _ _ Hperm).
  rewrite (count_filter_permutation (syntax_failure filter_list action_list)
             _ _ Hperm).
  rewrite !(sum_map_permutation _ _ _ Hperm).
  repeat split; reflexivity.
Qed.

Lemma rates_ignore_the_order_of_the_dataset_witness :
  Permutation [valid_record; hallucinating_record]
              [hallucinating_record; valid_record]
  /\ fst (@calculate_dataset_metrics spec_front_end 0%nat mock_filters
            mock_actions
            (store 0%nat [valid_record; hallucinating_record] empty_world))
     = fst (@calculate_dataset_metrics spec_front_end 0%nat mock_filters
              mock_actions
              (store 0%nat [hallucinating_record; valid_record]
                 empty_world)).
Proof.
  assert (H : Permutation [valid_record; hallucinating_record]
                          [hallucinating_record; valid_record])
    by apply perm_swap.
  split; [exact H|].
  exact (proj1 (@rates_ignore_the_order_of_the_dataset spec_front_end 0%nat
                  mock_filters mock_actions _ _ empty_world H)).
Defined.

(** X9.  The hallucination rates read the registry as a set of names: two
    lists of operations with the same names, in any order and with any
    repetition, give the same run. *)
Theorem allowed_names_matter_as_a_set {FE : FrontEnd} (dataset : ref)
    (filter_list filter_list' : list ExposedFunction) (w : World) :
  (forall method,
     In method (map name filter_list) <-> In method (map name filter_list')) ->
  calculate_hallucinated_filters_for_dataset dataset filter_list w
    = calculate_hallucinated_filters_for_dataset dataset filter_list' w
  /\ calculate_hallucinated_actions_for_dataset dataset filter_list w
     = calculate_hallucinated_actions_for_dataset dataset filter_list' w.
Proof.
  intros Hsame.
  assert (Hh : forall names,
             hallucinated (map name filter_list) names
             = hallucinated (map name filter_list') names).
  { intros names; unfold hallucinated; apply filter_ext; intros m.
    f_equal. apply eq_true_iff_eq. rewrite !py_in_In. apply Hsame. }
  assert (Hc : forall texts,
             hallucinated_calls (map name filter_list) texts
             = hallucinated_calls (map name filter_list') texts).
  { intros texts; unfold hallucinated_calls; f_equal.
    apply map_ext; intros iql; now rewrite Hh. }
  rewrite !hallucinated_filters_run, !hallucinated_actions_run, !Hc.
  split; reflexivity.
Qed.

Lemma allowed_names_matter_as_a_set_witness :
  (forall method,
     In method (map name mock_filters)
     <-> In method (map name (rev mock_filters ++ mock_filters)))
  /\ @calculate_hallucinated_filters_for_dataset spec_front_end 0%nat
       mock_filters (store 0%nat [hallucinating_record] empty_world)
     = @calculate_hallucinated_filters_for_dataset spec_front_end 0%nat
         (rev mock_filters ++ mock_filters)
         (store 0%nat [hallucinating_record] empty_world).
Proof.
  assert (H : forall method,
             In method (map name mock_filters)
             <-> In method (map name (rev mock_filters ++ mock_filters))).
  { intros method; simpl; tauto. }
  split; [exact H|].
  exact (proj1 (@allowed_names_matter_as_a_set spec_front_end 0%nat
                  mock_filters (rev mock_filters ++ mock_filters) _ H)).
Defined.

(** X10.  Exposing more operations never raises the hallucinated-filter
    rate: the rate against a registry extended by further operations is at
    most the rate against the registry itself. *)
Theorem more_allowed_names_never_raise_the_rate {FE : FrontEnd}
    (dataset : ref) (filter_list added : list ExposedFunction) (w : World) :
  exists r r',
    calculate_hallucinated_filters_for_dataset dataset filter_list w
      = (Ok r, w)
    /\ calculate_hallucinated_filters_for_dataset dataset
         (filter_list ++ added) w = (Ok r', w)
    /\ (r' <= r)%Q.
Proof.
  do 2 eexists.
  split; [apply hallucinated_filters_run|].
  split; [apply hallucinated_filters_run|].
  apply ratio_monotone.
  - apply Z.le_trans with (1 := proj1 (hallucinated_calls_bounds
                                         (map name filter_list)
                                         (map iql_filters (heap w dataset)))).
    apply hallucinated_calls_bounds.
  - rewrite map_app. apply hallucinated_calls_antitone.
Qed.

(** X11.  Against the empty registry every extracted call is
    hallucinated: each hallucination rate is 1 when a call was extracted
    from some text of the dataset and 0 when none was. *)
Theorem empty_registry_hallucinates_every_call {FE : FrontEnd}
    (dataset : ref) (w : World) :
  calculate_hallucinated_filters_for_dataset dataset [] w
    = (Ok (if extracted_calls (map iql_filters (heap w dataset)) =? 0
           then 0%Q else 1%Q), w)
  /\ calculate_hallucinated_actions_for_dataset dataset [] w
     = (Ok (if extracted_calls (map iql_actions (heap w dataset)) =? 0
            then 0%Q else 1%Q), w).
Proof.
  assert (Hall : forall texts,
             hallucinated_calls [] texts = extracted_calls texts).
  { intros texts; unfold hallucinated_calls, extracted_calls.
    f_equal; apply map_ext; intros iql. unfold hallucinated.
    f_equal. induction (extracted_names iql) as [|m ms IH];
      [reflexivity|]. cbn [filter]. change (py_in m []) with false.
    cbn [negb]. now f_equal. }
  assert (Hratio : forall t, 0 <= t ->
             ratio t t = if t =? 0 then 0%Q else 1%Q).
  { intros t Ht. destruct (t =? 0) eqn:E.
    - apply Z.eqb_eq in E; now subst.
    - apply Z.eqb_neq in E. apply ratio_full; lia. }
  rewrite hallucinated_filters_run, hallucinated_actions_run.
  cbn [map]. rewrite !Hall.
  assert (Hpos : forall texts, 0 <= extracted_calls texts).
  { intros texts. pose proof (hallucinated_calls_bounds [] texts). lia. }
  split; do 2 f_equal; apply Hratio, Hpos.
Qed.

(** X12.  Repeating a dataset changes no metric: the summary of a dataset
    put end to end with itself is the summary of the dataset, and both
    raise when it is empty. *)
Theorem rates_of_a_dataset_repeated {FE : FrontEnd} (dataset : ref)
    (filter_list action_list : list ExposedFunction)
    (examples : list IQLResult) (w : World) :
  fst (calculate_dataset_metrics dataset filter_list action_list
         (store dataset (examples ++ examples) w))
  = fst (calculate_dataset_metrics dataset filter_list action_list
           (store dataset examples w)).
Proof.
  rewrite !dataset_metrics_run, !heap_store. cbn [fst].
  unfold hallucinated_calls, extracted_calls.
  rewrite !map_app, !sum_app, !filter_app, !count_app.
  destruct (count examples =? 0) eqn:E.
  - apply Z.eqb_eq in E. rewrite E. reflexivity.
  - apply Z.eqb_neq in E. pose proof (count_positive examples) as Hpos.
    destruct (count examples + count examples =? 0) eqn:E';
      [apply Z.eqb_eq in E'; unfold count in *; lia|].
    assert (Hdouble : forall n d, 0 <= d -> ratio (n + n) (d + d) = ratio n d).
    { intros n d Hd. replace (n + n) with (2 * n) by lia.
      replace (d + d) with (2 * d) by lia. apply ratio_scale; lia. }
    rewrite !Hdouble; try reflexivity; try (unfold count; lia).
    + apply Z.le_trans with (1 := proj1 (hallucinated_calls_bounds
                                           (map name action_list)
                                           (map iql_actions examples))).
      apply hallucinated_calls_bounds.
    + apply Z.le_trans with (1 := proj1 (hallucinated_calls_bounds
                                           (map name filter_list)
                                           (map iql_filters examples))).
      apply hallucinated_calls_bounds.
Qed.

(** X13.  The hallucinated-filter rate of two datasets put end to end
    lies between the rates of the two: it is at least the smaller and at
    most the larger of them. *)
Theorem pooled_hallucination_rate_lies_between_the_parts {FE : FrontEnd}
    (dataset : ref) (filter_list : list ExposedFunction)
    (d1 d2 : list IQLResult) (w : World) :
  exists r1 r2 r,
    fst (calculate_hallucinated_filters_for_dataset dataset filter_list
           (store dataset d1 w)) = Ok r1
    /\ fst (calculate_hallucinated_filters_for_dataset dataset filter_list
              (store dataset d2 w)) = Ok r2
    /\ fst (calculate_hallucinated_filters_for_dataset dataset filter_list
              (store dataset (d1 ++ d2) w)) = Ok r
    /\ (Qmin r1 r2 <= r)%Q /\ (r <= Qmax r1 r2)%Q.
Proof.
  rewrite !hallucinated_filters_run, !heap_store. cbn [fst].
  do 3 eexists. do 3 (split; [reflexivity|]).
  unfold hallucinated_calls, extracted_calls.
  rewrite !map_app, !sum_app.
  apply ratio_mediant; apply hallucinated_calls_bounds.
Qed.

(** X14.  When the filters text of an example fails its full parse, the
    actions text of that example is not looked at: replacing it by any
    other text changes neither the valid-IQL rate, nor the syntax-error
    rate, nor what they log, wherever the example stands in the dataset. *)
Theorem failed_filters_text_hides_the_actions_text {FE : FrontEnd}
    (dataset : ref) (filter_list action_list : list ExposedFunction)
    (before after : list IQLResult) (example : IQLResult)
    (actions_text : string) (e : exn) (w : World) :
  IQLQuery_parse (iql_filters example) filter_list = Raise e ->
  fst (calculate_valid_iql dataset filter_list action_list
         (store dataset
            (before ++ with_actions example actions_text :: after) w))
    = fst (calculate_valid_iql dataset filter_list action_list
             (store dataset (before ++ example :: after) w))
  /\ sink (snd (calculate_valid_iql dataset filter_list action_list
                  (store dataset
                     (before ++ with_actions example actions_text :: after)
                     w)))
     = sink (snd (calculate_valid_iql dataset filter_list action_list
                    (store dataset (before ++ example :: after) w)))
  /\ fst (calculate_syntax_errors dataset filter_list action_list
            (store dataset
               (before ++ with_actions example actions_text :: after) w))
     = fst (calculate_syntax_errors dataset filter_list action_list
              (store dataset (before ++ example :: after) w))
  /\ sink (snd (calculate_syntax_errors dataset filter_list action_list
                  (store dataset
                     (before ++ with_actions example actions_text :: after)
                     w)))
     = sink (snd (calculate_syntax_errors dataset filter_list action_list
                    (store dataset (before ++ example :: after) w))).
Proof.
  intros Hraise.
  assert (Hsame : first_failure filter_list action_list
                    (with_actions example actions_text)
                  = first_failure filter_list action_list example).
  { unfold first_failure, with_actions; cbn [iql_filters].
    now rewrite Hraise. }
  destruct (same_failure_same_count _ _ _ _ Hsame)
    as (Hb & Hs & Hm & Ha).
  rewrite !valid_iql_run, !syntax_errors_run, !heap_store, !truediv_world,
    !truediv_value.
  rewrite !filter_app, !flat_map_app. cbn [filter flat_map].
  rewrite Hb, Hs, Hm, Ha. rewrite !count_app.
  destruct (both_pass filter_list action_list example),
           (syntax_failure filter_list action_list example);
    rewrite !count_cons; repeat split; reflexivity.
Qed.

Lemma failed_filters_text_hides_the_actions_text_witness :
  @IQLQuery_parse spec_front_end (iql_filters unbalanced_record) mock_filters
    = Raise (SyntaxError "'(' was never closed")
  /\ fst (@calculate_syntax_errors spec_front_end 0%nat mock_filters
            mock_actions
            (store 0%nat
               ([valid_record]
                ++ with_actions unbalanced_record "no_such_action()"
                   :: [hallucinating_record]) empty_world))
     = fst (@calculate_syntax_errors spec_front_end 0%nat mock_filters
              mock_actions
              (store 0%nat
                 ([valid_record] ++ unbalanced_record
                    :: [hallucinating_record]) empty_world)).
Proof.
  assert (H : @IQLQuery_parse spec_front_end (iql_filters unbalanced_record)
                mock_filters
              = Raise (SyntaxError "'(' was never closed"))
    by (vm_compute; reflexivity).
  split; [exact H|].
  destruct (@failed_filters_text_hides_the_actions_text spec_front_end 0%nat
              mock_filters mock_actions [valid_record] [hallucinating_record]
              unbalanced_record "no_such_action()" _ empty_world H)
    as (_ & _ & Hs & _).
  exact Hs.
Defined.

(** X15.  The syntax-error counter matches by class and so catches every
    subclass of [IQLError]: an example whose full parse fails with an
    instance of a class derived from [IQLError], whatever the class is
    called, is counted as a syntax error and is not logged. *)
Theorem subclasses_of_IQLError_count_as_syntax_errors {FE : FrontEnd}
    (dataset : ref) (filter_list action_list : list ExposedFunction)
    (example : IQLResult) (e : exn) (w : World) :
  first_failure filter_list action_list example = Some e ->
  In "IQLError" (exn_bases e) ->
  calculate_syntax_errors dataset filter_list action_list
    (store dataset [example] w)
  = (Ok 1%Q, store dataset [example] w).
Proof.
  intros Hfail Hbase.
  assert (Hkind : syntax_kind e = true).
  { unfold syntax_kind, except. cbn [existsb].
    now rewrite (instance_by_inheritance e "IQLError" Hbase). }
  rewrite syntax_errors_run, heap_store.
  unfold syntax_failure, semantic_failure. cbn [filter flat_map].
  rewrite Hfail, Hkind. simpl. now rewrite logged_nil.
Qed.

Lemma subclasses_of_IQLError_count_as_syntax_errors_witness :
  @first_failure derived_front_end mock_filters mock_actions
    hallucinating_record
    = Some (Exn "UnsupportedOperation" ["IQLError"] "bad_method")
  /\ @calculate_syntax_errors derived_front_end 0%nat mock_filters
       mock_actions (store 0%nat [hallucinating_record] empty_world)
     = (Ok 1%Q, store 0%nat [hallucinating_record] empty_world).
Proof.
  assert (H : @first_failure derived_front_end mock_filters mock_actions
                hallucinating_record
              = Some (Exn "UnsupportedOperation" ["IQLError"] "bad_method"))
    by (vm_compute; reflexivity).
  split; [exact H|].
  apply (@subclasses_of_IQLError_count_as_syntax_errors derived_front_end
           0%nat mock_filters mock_actions hallucinating_record _
           empty_world H).
  simpl; auto.
Defined.

(** X16.  The hallucinated-filter rate is 0 exactly when every call name
    extracted from every filters text of the dataset is the name of an
    operation of the registry; texts from which nothing is extracted do
    not stand in the way. *)
Theorem zero_rate_means_every_extracted_name_is_allowed {FE : FrontEnd}
    (dataset : ref) (filter_list : list ExposedFunction) (w : World) :
  exists r,
    calculate_hallucinated_filters_for_dataset dataset filter_list w
      = (Ok r, w)
    /\ (r = 0%Q
        <-> forall example, In example (heap w dataset) ->
            forall method,
              In method (extracted_names (iql_filters example)) ->
              In method (map name filter_list)).
Proof.
  eexists; split; [apply hallucinated_filters_run|].
  rewrite ratio_zero_iff by apply hallucinated_calls_bounds.
  rewrite no_hallucinated_calls. split.
  - intros H example Hex. apply H. now apply in_map.
  - intros H iql Hiql. apply in_map_iff in Hiql as (example & <- & Hex).
    now apply H.
Qed.

End MetricsProperties.
